(** * Trailing-stop supervisor: a shallow embedding of the Python sources

    The development follows the modules of the repository:
    - [profit_trailing.py]  ([ProfitTrailing]: [update_trailing_stop],
      [book_profit], [fetch_open_positions], one iteration of [track]);
    - [trade_manager.py]    ([TradeManager.place_market_order],
      [get_current_price], [monitor_trailing_stop]);
    - [order_manager.py]    ([OrderManager._store_order], the local cache,
      [is_order_open], [has_open_position], [modify_bracket_order],
      [cancel_order]);
    - [binance_ws.py]       ([BinanceWebsocket._on_message],
      [_monitor_connection]);
    - [signal_processor.py] ([SignalProcessor.cancel_conflicting_orders],
      [cancel_same_side_orders], [open_pending_order_exists],
      [signals_are_different], [process_signals_loop]);
    - [exchange.py]         ([DeltaExchangeClient.quantize_price]).

    Conventions of the embedding.
    - A Python [float] is an exact rational ([Q]); rounding, NaN and the
      infinities are outside the model.  Comparisons of floats are the
      boolean comparisons of [Q] ([Qeq_bool], [Qle_bool]); a division
      raises [ZeroDivisionError] on a zero divisor, as in Python.
    - A value read from a venue record with [dict.get] is a [pyval]; a key
      that is missing and a key bound to [None] both read as [VNone].
      Symbol identifiers and the side of an order are strings when they
      are present.
    - A Python exception is a [Raise] result; a function that mutates
      [self] is a state transformer that also returns the state reached
      when it raises.
    - The exchange, the clock, [uuid4] and the Redis store are outside the
      program: their answers during a call are inputs ([venue]), and the
      requests sent to them are logged in the state ([venue_calls]).
    - The builtins [float(str)] and [str(float)] are parameters
      ([PyFloat]); [Decimal] is an instance used to run examples.
      [str.strip] is a parameter of the signal loop, and the arithmetic of
      [decimal.Decimal] is exact.
    - Threads and wall-clock time are not modelled: [track] and the
      watchdog are given one iteration at a time, with the clock readings
      as inputs. *)

From Stdlib Require Import QArith Qminmax Qabs Qround Lqa ZArith String Ascii.
From stdpp Require Import gmap strings list pretty.

Local Open Scope string_scope.

(** ** Python values, exceptions and results *)

Inductive exn : Type :=
| TypeError
| ValueError
| ZeroDivisionError
| VenueError.      (* any error raised by the exchange client *)

Inductive res (A : Type) : Type :=
| Ret (a : A)
| Raise (e : exn).
Arguments Ret {A} a.
Arguments Raise {A} e.

Inductive pyval : Type :=
| VNone
| VBool (b : bool)
| VInt (z : Z)
| VFloat (q : Q)
| VStr (s : string).

(** [float(s)] on a string and [str(x)] on a float. *)
Class PyFloat : Type := {
  float_of_str : string -> option Q;
  str_of_float : Q -> string
}.

Definition Qlt_bool (a b : Q) : bool := negb (Qle_bool b a).

(** Truth value of an object, as used by [or], [and], [if]. *)
Definition truthy (v : pyval) : bool :=
  match v with
  | VNone => false
  | VBool b => b
  | VInt z => negb (z =? 0)%Z
  | VFloat q => negb (Qeq_bool q 0)
  | VStr s => negb (String.eqb s "")
  end.

(** [a or b] *)
Definition py_or (a b : pyval) : pyval := if truthy a then a else b.

(** [a or b] where [a] is an optional string ([None] when missing). *)
Definition str_or (a : option string) (b : string) : string :=
  match a with
  | Some s => if String.eqb s "" then b else s
  | None => b
  end.

Section Builtins.
Context `{PyFloat}.

(** [float(v)] *)
Definition py_float (v : pyval) : res Q :=
  match v with
  | VNone => Raise TypeError
  | VBool b => Ret (if b then 1 else 0)%Q
  | VInt z => Ret (inject_Z z)
  | VFloat q => Ret q
  | VStr s => match float_of_str s with
              | Some q => Ret q
              | None => Raise ValueError
              end
  end.

(** [str(v)], the conversion an f-string applies to [{v}]. *)
Definition py_str (v : pyval) : string :=
  match v with
  | VNone => "None"
  | VBool true => "True"
  | VBool false => "False"
  | VInt z => pretty z
  | VFloat q => str_of_float q
  | VStr s => s
  end.

(** [try: x = float(v)] / [except Exception: x = d] *)
Definition float_or (v : pyval) (d : Q) : Q :=
  match py_float v with
  | Ret q => q
  | Raise _ => d
  end.

End Builtins.

(** [a / b] on floats *)
Definition py_div (a b : Q) : res Q :=
  if Qeq_bool b 0 then Raise ZeroDivisionError else Ret (a / b)%Q.

(** [round(x, 2)]: to two decimals, ties to even. *)
Definition round2 (x : Q) : Q :=
  let n := (Qnum x * 100)%Z in
  let d := Z.pos (Qden x) in
  let f := (n / d)%Z in
  let r := (n mod d)%Z in
  let up := match (2 * r ?= d)%Z with
            | Lt => false
            | Gt => true
            | Eq => Z.odd f
            end in
  Qmake (if up then f + 1 else f) 100.

(** [s.lower()] on ASCII text *)
Definition lower_ascii (c : ascii) : ascii :=
  let n := nat_of_ascii c in
  if ((65 <=? n) && (n <=? 90))%nat then ascii_of_nat (n + 32) else c.

Fixpoint lower (s : string) : string :=
  match s with
  | EmptyString => EmptyString
  | String c s' => String (lower_ascii c) (lower s')
  end.

(** [needle in hay] *)
Fixpoint contains (needle hay : string) : bool :=
  String.prefix needle hay ||
  match hay with
  | EmptyString => false
  | String _ hay' => contains needle hay'
  end.

(** [hay.startswith(p)] *)
Definition startswith (hay p : string) : bool := String.prefix p hay.

(** ** State transformers with exceptions *)

Definition M (S A : Type) : Type := S -> res A * S.

#[global] Instance M_ret {S} : MRet (M S) := fun A a st => (Ret a, st).
#[global] Instance M_bind {S} : MBind (M S) := fun A B f m st =>
  match m st with
  | (Ret a, st') => f a st'
  | (Raise e, st') => (Raise e, st')
  end.

Definition raise {S A} (e : exn) : M S A := fun st => (Raise e, st).
Definition gets {S A} (f : S -> A) : M S A := fun st => (Ret (f st), st).
Definition modify {S} (f : S -> S) : M S unit := fun st => (Ret tt, f st).
Definition lift_res {S A} (r : res A) : M S A := fun st => (r, st).

(** [try: m] / [except Exception as e: h e] *)
Definition try_except {S A} (m : M S A) (h : exn -> M S A) : M S A := fun st =>
  match m st with
  | (Ret a, st') => (Ret a, st')
  | (Raise e, st') => h e st'
  end.

(** Run [m] on a component of the state. *)
Definition zoom {S T A} (get : S -> T) (set : T -> S -> S) (m : M T A) : M S A :=
  fun st => let '(r, t') := m (get st) in (r, set t' st).

(** ** Records of the execution venue *)

(** A position as returned by [fetch_positions]: the fields the program
    reads.  [info_*] are the entries of the nested ['info'] dictionary
    ([pos.get('info', {})]); symbol identifiers are strings when present. *)
Record position : Type := {
  info_product_symbol : option string;
  info_entry_price : pyval;
  info_unrealized_pnl : pyval;
  symbol : option string;
  entryPrice : pyval;
  size : pyval;
  contracts : pyval
}.

(** An entry of [fetch_open_orders]. *)
Record open_order : Type := {
  oo_side : option string
}.

(** The dictionary returned by [exchange.create_order]; a field is [None]
    when the key is missing. *)
Record order_response : Type := {
  r_id : option string;
  r_status : option string;
  r_timestamp : option Z
}.

(** An entry of the local cache [OrderManager.orders].  Entries written by
    [place_market_order] carry every field; entries written elsewhere may
    lack ['side'], ['status'] or ['timestamp']. *)
Record order_info : Type := {
  oi_id : string;
  oi_symbol : option string;
  oi_side : option string;
  oi_amount : option Q;
  oi_params : gmap string pyval;
  oi_status : option string;
  oi_timestamp : option Z
}.

(** Requests sent to collaborators, in program order.  The log is
    instrumentation: no decision of the program reads it. *)
Inductive venue_call : Type :=
| CallFetchPositions
| CallFetchOpenOrders (sym : string)
| CallCreateOrder (sym type side : string) (amount : Q) (params : gmap string pyval)
| CallRedisPush (o : order_info)
| CallSleep (seconds : Z).

(** What the collaborators answer during one [place_market_order]. *)
Record venue : Type := {
  positions_before : res (list position);   (* first fetch_positions() *)
  live_open_orders : res (list open_order); (* fetch_open_orders(symbol) *)
  now_ms : Z;                               (* int(time.time() * 1000) *)
  created : res order_response;             (* create_order(...) *)
  fresh_uuid : string;                      (* str(uuid.uuid4()) *)
  now_ms_order : Z;                         (* clock when the order returns *)
  redis_ok : bool;                          (* rpush/ltrim succeed *)
  positions_after : res (list position)     (* fetch_positions() after the delay *)
}.

(** ** [OrderManager] and [TradeManager] state *)

Record tm_state : Type := {
  orders : gmap string order_info;   (* self.order_manager.orders *)
  archive : list order_info;         (* the Redis list f"{SYMBOL}_orders" *)
  venue_calls : list venue_call
}.

Definition set_orders (f : gmap string order_info -> gmap string order_info)
    (st : tm_state) : tm_state :=
  {| orders := f (orders st); archive := archive st; venue_calls := venue_calls st |}.

Definition set_archive (f : list order_info -> list order_info)
    (st : tm_state) : tm_state :=
  {| orders := orders st; archive := f (archive st); venue_calls := venue_calls st |}.

Definition call (c : venue_call) : M tm_state unit :=
  modify (fun st =>
    {| orders := orders st; archive := archive st;
       venue_calls := venue_calls st ++ [c] |}).

(** Number of [create_order] requests in a log. *)
Definition is_create_order (c : venue_call) : bool :=
  match c with CallCreateOrder _ _ _ _ _ => true | _ => false end.

Definition create_order_count (l : list venue_call) : nat :=
  length (List.filter is_create_order l).

(** [OrderManager._store_order]: [rpush] then [ltrim(key, -1000, -1)];
    an error of the store is logged and swallowed. *)
Definition ltrim_last (n : nat) (l : list order_info) : list order_info :=
  drop (length l - n) l.

Definition _store_order (redis_up : bool) (o : order_info) : M tm_state unit :=
  try_except
    (if redis_up
     then call (CallRedisPush o) ;; modify (set_archive (fun l => ltrim_last 1000 (l ++ [o])))
     else raise VenueError)
    (fun _ => mret tt).

(** ** [TradeManager.place_market_order] *)

Section TradeManager.
Context `{PyFloat}.

(** [float(pos.get('size') or pos.get('contracts') or 0)] *)
Definition size_value (pos : position) : pyval :=
  py_or (py_or (size pos) (contracts pos)) (VInt 0).

(** One turn of the loop over [positions] in the safety check: [continue]
    when [sym] does not occur in the position's symbol, otherwise a hit
    when the position is open in the requested direction. *)
Definition same_side_position (sym side_lower : string) (pos : position) : bool :=
  let pos_symbol := str_or (info_product_symbol pos) (str_or (symbol pos) "") in
  if negb (contains sym pos_symbol) then false
  else
    let size_num := float_or (size_value pos) 0 in
    (String.eqb side_lower "buy" && Qlt_bool 0 size_num)
    || (String.eqb side_lower "sell" && Qlt_bool size_num 0).

Definition check_open_position (v : venue) (sym side_lower : string) : M tm_state bool :=
  try_except
    (call CallFetchPositions ;;
     positions ← lift_res (positions_before v);
     mret (existsb (same_side_position sym side_lower) positions))
    (fun _ => mret false).

Definition same_side_order (side_lower : string) (o : open_order) : bool :=
  String.eqb (lower (default "" (oo_side o))) side_lower.

Definition check_pending_order (v : venue) (sym side_lower : string) : M tm_state bool :=
  try_except
    (call (CallFetchOpenOrders sym) ;;
     open_orders ← lift_res (live_open_orders v);
     mret (existsb (same_side_order side_lower) open_orders))
    (fun _ => mret false).

(** [current_time - o.get("timestamp", 0) > 60000] *)
Definition is_stale (current_time : Z) (o : order_info) : bool :=
  (60000 <? current_time - default 0 (oi_timestamp o))%Z.

(** [for oid in stale_ids: del self.order_manager.orders[oid]] *)
Definition prune_stale (current_time : Z) (m : gmap string order_info) :
    gmap string order_info :=
  filter (fun kv => is_stale current_time kv.2 = false) m.

(** [o.get("side", "").lower() == side_lower and
     o.get("status") in ["open", "pending"]] *)
Definition local_pending (side_lower : string) (o : order_info) : bool :=
  String.eqb (lower (default "" (oi_side o))) side_lower
  && match oi_status o with
     | Some s => String.eqb s "open" || String.eqb s "pending"
     | None => false
     end.

Definition check_local_pending (v : venue) (side_lower : string) : M tm_state bool :=
  modify (set_orders (prune_stale (now_ms v))) ;;
  gets (fun st =>
    bool_decide (map_Exists (fun _ o => local_pending side_lower o = true) (orders st))).

(** The three checks of the branch [if not force]; [true] stands for the
    early [return None]. *)
Definition safety_checks (v : venue) (sym side_lower : string) : M tm_state bool :=
  hit ← check_open_position v sym side_lower;
  if hit : bool then mret true else
  hit ← check_pending_order v sym side_lower;
  if hit : bool then mret true else
  check_local_pending v side_lower.

(** [params.setdefault(k, x)] *)
Definition setdefault (k : string) (x : pyval) (m : gmap string pyval) :
    gmap string pyval :=
  match m !! k with
  | Some _ => m
  | None => <[k := x]> m
  end.

(** [any(symbol_of(pos).startswith(symbol) and float(size_of(pos)) != 0
         for pos in positions_after)]; the conversion is not guarded. *)
Fixpoint still_open (sym : string) (positions : list position) : res bool :=
  match positions with
  | [] => Ret false
  | pos :: rest =>
      if startswith (str_or (info_product_symbol pos) (default "" (symbol pos))) sym
      then match py_float (size_value pos) with
           | Raise e => Raise e
           | Ret s => if negb (Qeq_bool s 0) then Ret true else still_open sym rest
           end
      else still_open sym rest
  end.

(** One turn of the loop that verifies an opening order. *)
Definition opened_on_side (sym side_lower : string) (pos : position) : bool :=
  let pos_symbol := str_or (info_product_symbol pos) (str_or (symbol pos) "") in
  if negb (startswith pos_symbol sym) then false
  else
    let size_num := float_or (size_value pos) 0 in
    (String.eqb side_lower "buy" && Qlt_bool 0 size_num)
    || (String.eqb side_lower "sell" && Qlt_bool size_num 0).

Definition place_market_order (v : venue) (sym side : string) (amount : Q)
    (params : option (gmap string pyval)) (force : bool) :
    M tm_state (option order_info) :=
  let side_lower := lower side in
  skip ← (if force then mret false else safety_checks v sym side_lower);
  if skip : bool then mret None else
  let params :=
    if force then Some (setdefault "reduce_only" (VBool true) (default ∅ params))
    else params in
  try_except
    (call (CallCreateOrder sym "market" side amount (default ∅ params)) ;;
     order ← lift_res (created v);
     let order_id := default (fresh_uuid v) (r_id order) in
     let order_info :=
       {| oi_id := order_id;
          oi_symbol := Some sym;
          oi_side := Some side;
          oi_amount := Some amount;
          oi_params := default ∅ params;
          oi_status := Some (default "open" (r_status order));
          oi_timestamp := Some (default (now_ms_order v) (r_timestamp order)) |} in
     modify (set_orders (insert order_id order_info)) ;;
     _store_order (redis_ok v) order_info ;;
     call (CallSleep 1) ;;
     call CallFetchPositions ;;
     after ← lift_res (positions_after v);
     if force then
       open ← lift_res (still_open sym after);
       if open : bool then mret None else mret (Some order_info)
     else
       if existsb (opened_on_side sym side_lower) after
       then mret (Some order_info)
       else mret None)
    (fun e => raise e).

End TradeManager.

(** ** [config.py]: the settings the tracked code reads *)

Class Config : Type := {
  SYMBOL : string;
  FIXED_STOP_OFFSET_PERCENT : Q
}.

(** ** [ProfitTrailing] *)

Inductive rule : Type := lock_50 | fixed_stop.

(** The dictionary [display] built by [track] for its change-only log. *)
Record display : Type := {
  d_entry : option Q;
  d_api_entry : Q;
  d_live : Q;
  d_profit_pct : Q;
  d_profit_usd : Q;
  d_api_pnl : Q;
  d_rule : option rule;
  d_sl : Q;
  d_size : Q;
  d_side : string;
  d_max_profit : Q
}.

Record pt_state : Type := {
  trade_manager : tm_state;
  position_trailing_stop : gmap string Q;
  last_had_positions : bool;
  last_position_fetch_time : Q;
  position_fetch_interval : Q;
  cached_positions : list position;
  last_display : gmap string display;
  position_max_profit : gmap string Q;
  take_profit_detected : bool
}.

Definition set_trade_manager (t : tm_state) (st : pt_state) : pt_state :=
  {| trade_manager := t;
     position_trailing_stop := position_trailing_stop st;
     last_had_positions := last_had_positions st;
     last_position_fetch_time := last_position_fetch_time st;
     position_fetch_interval := position_fetch_interval st;
     cached_positions := cached_positions st;
     last_display := last_display st;
     position_max_profit := position_max_profit st;
     take_profit_detected := take_profit_detected st |}.

Definition set_position_trailing_stop (f : gmap string Q -> gmap string Q)
    (st : pt_state) : pt_state :=
  {| trade_manager := trade_manager st;
     position_trailing_stop := f (position_trailing_stop st);
     last_had_positions := last_had_positions st;
     last_position_fetch_time := last_position_fetch_time st;
     position_fetch_interval := position_fetch_interval st;
     cached_positions := cached_positions st;
     last_display := last_display st;
     position_max_profit := position_max_profit st;
     take_profit_detected := take_profit_detected st |}.

Definition set_position_max_profit (f : gmap string Q -> gmap string Q)
    (st : pt_state) : pt_state :=
  {| trade_manager := trade_manager st;
     position_trailing_stop := position_trailing_stop st;
     last_had_positions := last_had_positions st;
     last_position_fetch_time := last_position_fetch_time st;
     position_fetch_interval := position_fetch_interval st;
     cached_positions := cached_positions st;
     last_display := last_display st;
     position_max_profit := f (position_max_profit st);
     take_profit_detected := take_profit_detected st |}.

Definition set_last_had_positions (b : bool) (st : pt_state) : pt_state :=
  {| trade_manager := trade_manager st;
     position_trailing_stop := position_trailing_stop st;
     last_had_positions := b;
     last_position_fetch_time := last_position_fetch_time st;
     position_fetch_interval := position_fetch_interval st;
     cached_positions := cached_positions st;
     last_display := last_display st;
     position_max_profit := position_max_profit st;
     take_profit_detected := take_profit_detected st |}.

Definition set_poll (now : Q) (ps : list position) (st : pt_state) : pt_state :=
  {| trade_manager := trade_manager st;
     position_trailing_stop := position_trailing_stop st;
     last_had_positions := last_had_positions st;
     last_position_fetch_time := now;
     position_fetch_interval := position_fetch_interval st;
     cached_positions := ps;
     last_display := last_display st;
     position_max_profit := position_max_profit st;
     take_profit_detected := take_profit_detected st |}.

Definition set_last_display (f : gmap string display -> gmap string display)
    (st : pt_state) : pt_state :=
  {| trade_manager := trade_manager st;
     position_trailing_stop := position_trailing_stop st;
     last_had_positions := last_had_positions st;
     last_position_fetch_time := last_position_fetch_time st;
     position_fetch_interval := position_fetch_interval st;
     cached_positions := cached_positions st;
     last_display := f (last_display st);
     position_max_profit := position_max_profit st;
     take_profit_detected := take_profit_detected st |}.

(** The signal processor's write [profit_trailing.take_profit_detected = b]. *)
Definition set_take_profit_detected (b : bool) (st : pt_state) : pt_state :=
  {| trade_manager := trade_manager st;
     position_trailing_stop := position_trailing_stop st;
     last_had_positions := last_had_positions st;
     last_position_fetch_time := last_position_fetch_time st;
     position_fetch_interval := position_fetch_interval st;
     cached_positions := cached_positions st;
     last_display := last_display st;
     position_max_profit := position_max_profit st;
     take_profit_detected := b |}.

(** [ProfitTrailing.__init__] *)
Definition pt_init : pt_state :=
  {| trade_manager := {| orders := ∅; archive := []; venue_calls := [] |};
     position_trailing_stop := ∅;
     last_had_positions := true;
     last_position_fetch_time := 0;
     position_fetch_interval := 5;
     cached_positions := [];
     last_display := ∅;
     position_max_profit := ∅;
     take_profit_detected := false |}.

Section ProfitTrailing.
Context `{PyFloat} `{Config}.

(** [pos.get('info', {}).get('entry_price') or pos.get('entryPrice')] *)
Definition entry_value (pos : position) : pyval :=
  py_or (info_entry_price pos) (entryPrice pos).

(** The identity of a position:
    [f"{pos_symbol}_{entry_val}_{size_val}"]. *)
Definition position_key (pos : position) : string :=
  let pos_symbol := str_or (info_product_symbol pos) (default "unknown" (symbol pos)) in
  let entry_val := entry_value pos in
  let size_val := py_or (size pos) (contracts pos) in
  pos_symbol ++ "_" ++ py_str entry_val ++ "_" ++ py_str size_val.

Definition fetch_open_positions (poll : res (list position)) : list position :=
  match poll with
  | Raise _ => []
  | Ret positions =>
      filter (fun pos =>
        let size_num := float_or (size_value pos) 0 in
        let pos_symbol := str_or (info_product_symbol pos) (default "" (symbol pos)) in
        (negb (Qeq_bool size_num 0)
         && (negb (String.eqb pos_symbol "") && contains SYMBOL pos_symbol)) = true)
        positions
  end.

Definition compute_profit_pct (pos : position) (live_price : Q) : res (option Q) :=
  match py_float (entry_value pos) with
  | Raise _ => Ret None
  | Ret entry =>
      let size_num := float_or (size_value pos) 0 in
      match (if Qlt_bool 0 size_num
             then py_div (live_price - entry) entry
             else py_div (entry - live_price) entry) with
      | Ret q => Ret (Some q)
      | Raise e => Raise e
      end
  end.

Definition compute_raw_profit (pos : position) (live_price : Q) : option Q :=
  match py_float (entry_value pos) with
  | Raise _ => None
  | Ret entry =>
      let size_num := float_or (size_value pos) 0 in
      Some (if Qlt_bool 0 size_num
            then (live_price - entry) * size_num
            else (entry - live_price) * Qabs size_num)%Q
  end.

(** The result is [None] for the tuple [(None, None, None)] and
    [Some (new_trailing, profit_pct, rule)] otherwise. *)
Definition update_trailing_stop (pos : position) (live_price : Q) :
    M pt_state (option (Q * Q * rule)) :=
  let key := position_key pos in
  match py_float (entry_value pos) with
  | Raise _ => mret None
  | Ret entry =>
      let size_num := float_or (size_value pos) 0 in
      if Qeq_bool size_num 0 then mret None else
      let current_profit :=
        (if Qlt_bool 0 size_num then live_price - entry else entry - live_price)%Q in
      prev_max ← gets (fun st => default 0%Q (position_max_profit st !! key));
      let new_max := Qmax prev_max current_profit in
      modify (set_position_max_profit (insert key new_max)) ;;
      take_profit ← gets take_profit_detected;
      let '(new_trailing, rule) :=
        if take_profit && Qle_bool 400 new_max
        then ((if Qlt_bool 0 size_num then entry + new_max / 2 else entry - new_max / 2)%Q,
              lock_50)
        else
          let default_offset := (entry * (FIXED_STOP_OFFSET_PERCENT / 100))%Q in
          ((if Qlt_bool 0 size_num then entry - default_offset else entry + default_offset)%Q,
           fixed_stop) in
      modify (set_position_trailing_stop (insert key new_trailing)) ;;
      profit_pct ← lift_res (py_div new_max entry);
      mret (Some (new_trailing, profit_pct, rule))
  end.

(** The parameters of every close issued by [book_profit]. *)
Definition ioc : option (gmap string pyval) := Some {[ "time_in_force" := VStr "ioc" ]}.

(** The statement [if rule == "lock_50": ... else: ...] of [book_profit],
    with both branches as the source writes them; falling out of the
    statement reaches the final [return False]. *)
Definition book_profit_branch (ru : rule) (v : venue) (size_num live_price trailing_stop : Q) :
    M pt_state bool :=
  match ru with
  | lock_50 =>
      if Qlt_bool 0 size_num && Qlt_bool live_price trailing_stop then
        try_except
          (close ← zoom trade_manager set_trade_manager
                     (place_market_order v SYMBOL "sell" size_num ioc true);
           mret true)
          (fun _ => mret false)
      else if Qlt_bool size_num 0 && Qlt_bool trailing_stop live_price then
        try_except
          (close ← zoom trade_manager set_trade_manager
                     (place_market_order v SYMBOL "buy" (Qabs size_num) ioc true);
           mret true)
          (fun _ => mret false)
      else mret false
  | fixed_stop =>
      if Qlt_bool 0 size_num && Qlt_bool live_price trailing_stop then
        try_except
          (close ← zoom trade_manager set_trade_manager
                     (place_market_order v SYMBOL "sell" size_num ioc true);
           mret true)
          (fun _ => mret false)
      else if Qlt_bool size_num 0 && Qlt_bool trailing_stop live_price then
        try_except
          (close ← zoom trade_manager set_trade_manager
                     (place_market_order v SYMBOL "buy" (Qabs size_num) ioc true);
           mret true)
          (fun _ => mret false)
      else mret false
  end.

Definition book_profit (v : venue) (pos : position) (live_price : Q) : M pt_state bool :=
  let size_num := float_or (size_value pos) 0 in
  r ← update_trailing_stop pos live_price;
  match r with
  | None => mret false
  | Some (trailing_stop, _, ru) =>
      book_profit_branch ru v size_num live_price trailing_stop
  end.

(** Equality of two [display] dictionaries ([==] on dicts). *)
Definition opt_Qeqb (a b : option Q) : bool :=
  match a, b with
  | Some x, Some y => Qeq_bool x y
  | None, None => true
  | _, _ => false
  end.

Definition opt_rule_eqb (a b : option rule) : bool :=
  match a, b with
  | Some lock_50, Some lock_50 | Some fixed_stop, Some fixed_stop | None, None => true
  | _, _ => false
  end.

Definition display_eqb (a b : display) : bool :=
  opt_Qeqb (d_entry a) (d_entry b)
  && Qeq_bool (d_api_entry a) (d_api_entry b)
  && Qeq_bool (d_live a) (d_live b)
  && Qeq_bool (d_profit_pct a) (d_profit_pct b)
  && Qeq_bool (d_profit_usd a) (d_profit_usd b)
  && Qeq_bool (d_api_pnl a) (d_api_pnl b)
  && opt_rule_eqb (d_rule a) (d_rule b)
  && Qeq_bool (d_sl a) (d_sl b)
  && Qeq_bool (d_size a) (d_size b)
  && String.eqb (d_side a) (d_side b)
  && Qeq_bool (d_max_profit a) (d_max_profit b).

(** [f"{x}"] for an optional string read with [dict.get]. *)
Definition opt_str (a : option string) : string := default "None" a.

(** The key that [track] uses for its display table and for reading
    [position_max_profit]: the primary fields only, without fallbacks. *)
Definition display_key (pos : position) : string :=
  opt_str (info_product_symbol pos) ++ "_" ++ py_str (info_entry_price pos)
  ++ "_" ++ py_str (size pos).

(** The body of [for pos in self.cached_positions] in [track]. *)
Definition track_position (live_price : Q) (v : venue) (pos : position) : M pt_state unit :=
  let entry_num :=
    match py_float (entry_value pos) with Ret q => Some q | Raise _ => None end in
  let size_num := float_or (size_value pos) 0 in
  if Qeq_bool size_num 0 then mret tt (* continue *) else
  profit_pct ← lift_res (compute_profit_pct pos live_price);
  let profit_display := (default 0 profit_pct * 100)%Q in
  let raw_profit := default 0%Q (compute_raw_profit pos live_price) in
  let profit_usd := (raw_profit / 1000)%Q in
  r ← update_trailing_stop pos live_price;
  max_profit ← gets (fun st => default 0%Q (position_max_profit st !! display_key pos));
  let '(api_pnl, api_entry) :=
    match py_float (py_or (info_unrealized_pnl pos) (VInt 0)),
          py_float (py_or (info_entry_price pos) (VInt 0)) with
    | Ret a, Ret b => (a, b)
    | _, _ => (0%Q, 0%Q)
    end in
  let side := if Qlt_bool 0 size_num then "long" else "short" in
  let key := display_key pos in
  let trailing_stop := match r with Some (t, _, _) => Some t | None => None end in
  let shown :=
    {| d_entry := entry_num;
       d_api_entry := round2 api_entry;
       d_live := live_price;
       d_profit_pct := round2 profit_display;
       d_profit_usd := round2 profit_usd;
       d_api_pnl := round2 api_pnl;
       d_rule := match r with Some (_, _, ru) => Some ru | None => None end;
       d_sl := round2 (default 0%Q trailing_stop);
       d_size := size_num;
       d_side := side;
       d_max_profit := round2 max_profit |} in
  previous ← gets (fun st => last_display st !! key);
  (if match previous with Some p => display_eqb p shown | None => false end
   then mret tt
   else
     (* the log line formats entry_num with ".1f" and trailing_stop with
        ".2f"; formatting None with such a spec raises TypeError *)
     match entry_num, trailing_stop with
     | Some _, Some _ => modify (set_last_display (insert key shown))
     | _, _ => raise TypeError
     end) ;;
  try_except
    (booked ← book_profit v pos live_price; mret tt)
    (fun _ => mret tt).

Fixpoint track_positions (live_price : Q) (venues : nat -> venue) (i : nat)
    (ps : list position) : M pt_state unit :=
  match ps with
  | [] => mret tt
  | pos :: rest =>
      track_position live_price (venues i) pos ;;
      track_positions live_price venues (S i) rest
  end.

Definition clear_trailing (st : pt_state) : pt_state :=
  set_position_max_profit (fun _ => ∅) (set_position_trailing_stop (fun _ => ∅) st).

(** One iteration of [while True] in [track].  [now] is [time.time()],
    [poll] the answer of [fetch_positions] (read only when the poll
    interval has elapsed), [current_price] the value of
    [self.ws.current_price], and [venues i] what the venue answers when the
    [i]-th cached position is closed.  The sleeps are not modelled. *)
Definition track_cycle (now : Q) (poll : res (list position))
    (current_price : option Q) (venues : nat -> venue) : M pt_state unit :=
  last_fetch ← gets last_position_fetch_time;
  interval ← gets position_fetch_interval;
  paused ←
    (if Qle_bool interval (now - last_fetch) then
       modify (set_poll now (fetch_open_positions poll)) ;;
       cached ← gets cached_positions;
       match cached with
       | [] =>
           modify (set_last_had_positions false) ;;
           modify clear_trailing ;;
           mret true
       | _ :: _ => mret false
       end
     else mret false);
  if paused : bool then mret tt (* continue *) else
  match current_price with
  | None => mret tt (* continue *)
  | Some live_price =>
      cached ← gets cached_positions;
      (if match cached with [] => false | _ :: _ => true end
       then modify (set_last_had_positions true)
       else mret tt) ;;
      track_positions live_price venues 0 cached
  end.

End ProfitTrailing.

(** ** [BinanceWebsocket]: the price feed and its watchdog *)

Record ws_state : Type := {
  current_price : option Q;
  last_update_time : Q;
  reconnect_interval : Q;
  reconnects : list Q   (* instrumentation: the times a new socket was started *)
}.

(** [BinanceWebsocket.__init__], created at time [now]. *)
Definition ws_init (now : Q) : ws_state :=
  {| current_price := None; last_update_time := now;
     reconnect_interval := 10; reconnects := [] |}.

Section PriceFeed.
Context `{PyFloat}.

(** [_on_message] at time [now]; [data] is the result of [json.loads]. *)
Definition _on_message (now : Q) (data : res (gmap string pyval)) (st : ws_state) :
    ws_state :=
  match data with
  | Raise _ => st
  | Ret d =>
      match d !! "p", d !! "q", d !! "m" with
      | Some p, Some _, Some _ =>
          match py_float p with
          | Ret price =>
              {| current_price := Some price; last_update_time := now;
                 reconnect_interval := reconnect_interval st;
                 reconnects := reconnects st |}
          | Raise _ => st
          end
      | _, _, _ => st
      end
  end.

End PriceFeed.

(** The body of the watchdog loop after [time.sleep(3)] has returned at
    time [now]: when the feed is stale the socket is closed and a new one
    is started; [last_update_time] is left as it is. *)
Definition monitor_poll (now : Q) (st : ws_state) : ws_state :=
  let time_since_update := (now - last_update_time st)%Q in
  if Qlt_bool (reconnect_interval st) time_since_update
  then {| current_price := current_price st;
          last_update_time := last_update_time st;
          reconnect_interval := reconnect_interval st;
          reconnects := reconnects st ++ [now] |}
  else st.

(** [n] iterations of [_monitor_connection] during which no message is
    handled, started at time [clock]; [time.sleep(3)] takes exactly three
    time units and the rest of the body none. *)
Fixpoint _monitor_connection (n : nat) (clock : Q) (st : ws_state) : ws_state :=
  match n with
  | O => st
  | S n' =>
      let clock' := (clock + 3)%Q in
      _monitor_connection n' clock' (monitor_poll clock' st)
  end.

(** The times at which those [n] iterations wake up. *)
Fixpoint wakes (n : nat) (clock : Q) : list Q :=
  match n with
  | O => []
  | S n' => (clock + 3)%Q :: wakes n' (clock + 3)%Q
  end.

(** ** Runnable instances of the parameters *)

Definition digit_of (c : ascii) : option Z :=
  let n := nat_of_ascii c in
  if ((48 <=? n) && (n <=? 57))%nat then Some (Z.of_nat (n - 48)) else None.

Fixpoint digits (s : string) (acc : Z) (count : nat) : Z * nat * string :=
  match s with
  | String c s' =>
      match digit_of c with
      | Some d => digits s' (acc * 10 + d)%Z (S count)
      | None => (acc, count, s)
      end
  | EmptyString => (acc, count, s)
  end.

(** [float(s)] on plain decimal literals: an optional sign, digits, an
    optional point and digits, at least one digit in all. *)
Definition decimal_of_string (s : string) : option Q :=
  let '(negative, s1) :=
    match s with
    | String "-" r => (true, r)
    | String "+" r => (false, r)
    | _ => (false, s)
    end in
  let '(ip, n1, s2) := digits s1 0 0 in
  let '(fp, n2, s3) :=
    match s2 with
    | String "." r => digits r 0 0
    | _ => (0%Z, 0%nat, s2)
    end in
  if String.eqb s3 "" && (0 <? n1 + n2)%nat then
    let magnitude := Qred (Qmake (ip * 10 ^ Z.of_nat n2 + fp) (Z.to_pos (10 ^ Z.of_nat n2))) in
    Some (if negative then Qopp magnitude else magnitude)
  else None.

Fixpoint frac_digits (fuel : nat) (r d : Z) : string :=
  match fuel with
  | O => ""
  | S fuel' =>
      if (r =? 0)%Z then ""
      else pretty (10 * r / d)%Z ++ frac_digits fuel' (10 * r mod d)%Z d
  end.

(** [str(x)] for a float with a short decimal expansion. *)
Definition decimal_of_Q (q : Q) : string :=
  let n := Qnum q in
  let d := Z.pos (Qden q) in
  let a := Z.abs n in
  let frac := frac_digits 17 (a mod d)%Z d in
  (if (n <? 0)%Z then "-" else "") ++ pretty (a / d)%Z ++ "."
  ++ (if String.eqb frac "" then "0" else frac).

#[global] Instance Decimal : PyFloat :=
  {| float_of_str := decimal_of_string; str_of_float := decimal_of_Q |}.

(** The defaults of [config.py]. *)
#[global] Instance default_config : Config :=
  {| SYMBOL := "BTCUSD"; FIXED_STOP_OFFSET_PERCENT := 0.60 |}.

(** A long of one contract entered at 100, as the venue reports it. *)
Definition long_100 : position :=
  {| info_product_symbol := Some "BTCUSD";
     info_entry_price := VStr "100";
     info_unrealized_pnl := VNone;
     symbol := None;
     entryPrice := VNone;
     size := VInt 1;
     contracts := VNone |}.

(** A venue that accepts every order and then reports no position. *)
Definition quiet_venue : venue :=
  {| positions_before := Ret [];
     live_open_orders := Ret [];
     now_ms := 0;
     created := Ret {| r_id := Some "o1"; r_status := Some "closed"; r_timestamp := Some 0%Z |};
     fresh_uuid := "uuid";
     now_ms_order := 0;
     redis_ok := true;
     positions_after := Ret [] |}.

(** ** Vocabulary of the statements *)

Section Vocabulary.
Context `{PyFloat} `{Config}.

(** The recorded maximum favourable excursion of an identity, read the way
    the program reads it: [position_max_profit.get(key, 0)]. *)
Definition mfe (st : pt_state) (k : string) : Q :=
  default 0%Q (position_max_profit st !! k).

(** [pos] converts to the entry price [entry] and to the non-zero signed
    size [size_num]. *)
Definition tracked (pos : position) (entry size_num : Q) : Prop :=
  py_float (entry_value pos) = Ret entry
  /\ float_or (size_value pos) 0 = size_num
  /\ Qeq_bool size_num 0 = false.

(** [live_price - entry] for a long, [entry - live_price] for a short. *)
Definition current_profit (entry size_num live_price : Q) : Q :=
  (if Qlt_bool 0 size_num then live_price - entry else entry - live_price)%Q.

(** The stop that locks half of the excursion [m]. *)
Definition lock_half_stop (entry size_num m : Q) : Q :=
  (if Qlt_bool 0 size_num then entry + m / 2 else entry - m / 2)%Q.

(** The stop at a fixed percentage of the entry price. *)
Definition fixed_offset_stop (entry size_num : Q) : Q :=
  (if Qlt_bool 0 size_num
   then entry - entry * (FIXED_STOP_OFFSET_PERCENT / 100)
   else entry + entry * (FIXED_STOP_OFFSET_PERCENT / 100))%Q.

(** The stop is breached: below it for a long, above it for a short. *)
Definition breached (size_num live_price stop : Q) : bool :=
  (Qlt_bool 0 size_num && Qlt_bool live_price stop)
  || (Qlt_bool size_num 0 && Qlt_bool stop live_price).

(** What can happen to a [ProfitTrailing] between two cycles: a price tick
    is evaluated for a position, or the signal processor sets the flag. *)
Inductive pt_action : Type :=
| Tick (pos : position) (live_price : Q)
| Signal (flag : bool).

Definition act (st : pt_state) (a : pt_action) : pt_state :=
  match a with
  | Tick pos live_price => snd (update_trailing_stop pos live_price st)
  | Signal flag => set_take_profit_detected flag st
  end.

Definition run (actions : list pt_action) (st : pt_state) : pt_state :=
  fold_left act actions st.

(** The record that [place_market_order] builds from the venue's answer. *)
Definition recorded (v : venue) (sym side : string) (amount : Q)
    (params : gmap string pyval) (order : order_response) : order_info :=
  {| oi_id := default (fresh_uuid v) (r_id order);
     oi_symbol := Some sym;
     oi_side := Some side;
     oi_amount := Some amount;
     oi_params := params;
     oi_status := Some (default "open" (r_status order));
     oi_timestamp := Some (default (now_ms_order v) (r_timestamp order)) |}.

(** Closed form of [place_market_order] from [create_order] on, for the
    parameters [params] that are sent; [place_market_order_forced] and
    [place_market_order_unforced] show that it is what the source
    computes. *)
Definition execute (v : venue) (sym side : string) (amount : Q)
    (params : gmap string pyval) (force : bool) (st : tm_state) :
    res (option order_info) * tm_state :=
  let sent :=
    {| orders := orders st; archive := archive st;
       venue_calls := venue_calls st
                      ++ [CallCreateOrder sym "market" side amount params] |} in
  match created v with
  | Raise e => (Raise e, sent)
  | Ret order =>
      let info := recorded v sym side amount params order in
      let stored :=
        {| orders := <[oi_id info := info]> (orders st);
           archive := if redis_ok v then ltrim_last 1000 (archive st ++ [info])
                      else archive st;
           venue_calls :=
             venue_calls st
             ++ [CallCreateOrder sym "market" side amount params]
             ++ (if redis_ok v then [CallRedisPush info] else [])
             ++ [CallSleep 1; CallFetchPositions] |} in
      (match positions_after v with
       | Raise e => Raise e
       | Ret after =>
           if force then
             match still_open sym after with
             | Raise e => Raise e
             | Ret true => Ret None
             | Ret false => Ret (Some info)
             end
           else if existsb (opened_on_side sym (lower side)) after
                then Ret (Some info) else Ret None
       end, stored)
  end.

(** Closed form of the first safety check ([safety_checks_eq]): [false]
    also when [fetch_positions] raises, which the program logs and
    ignores. *)
Definition position_check (v : venue) (sym side_lower : string) : bool :=
  match positions_before v with
  | Ret ps => existsb (same_side_position sym side_lower) ps
  | Raise _ => false
  end.

(** Closed form of the second safety check. *)
Definition order_check (v : venue) (side_lower : string) : bool :=
  match live_open_orders v with
  | Ret os => existsb (same_side_order side_lower) os
  | Raise _ => false
  end.



(** A cached order on the requested side, open or pending, whose age at
    time [now] (milliseconds) is at most the staleness window. *)
Definition cached_pending (now : Z) (side : string) (o : order_info) : Prop :=
  (now - default 0 (oi_timestamp o) <= 60000)%Z
  /\ lower (default "" (oi_side o)) = lower side
  /\ (oi_status o = Some "open" \/ oi_status o = Some "pending").

(** A forced close of [amount] on [side] with [time_in_force = ioc]; the
    result is [true] unless the executor raises. *)
Definition close_position (v : venue) (side : string) (amount : Q) : M pt_state bool :=
  try_except
    (close ← zoom trade_manager set_trade_manager
               (place_market_order v SYMBOL side amount ioc true);
     mret true)
    (fun _ => mret false).

(** [book_profit] as the specification words it, with no reference to the
    rule: sell the full size of a long below its stop, buy the absolute
    size of a short above its stop, and do nothing otherwise. *)
Definition close_on_breach (v : venue) (pos : position) (live_price : Q) :
    M pt_state bool :=
  let size_num := float_or (size_value pos) 0 in
  r ← update_trailing_stop pos live_price;
  match r with
  | None => mret false
  | Some (trailing_stop, _, _) =>
      if Qlt_bool 0 size_num && Qlt_bool live_price trailing_stop
      then close_position v "sell" size_num
      else if Qlt_bool size_num 0 && Qlt_bool trailing_stop live_price
           then close_position v "buy" (Qabs size_num)
           else mret false
  end.

(** The parameters that reach the venue with a close of [book_profit]. *)
Definition close_params : gmap string pyval :=
  <["reduce_only" := VBool true]> {[ "time_in_force" := VStr "ioc" ]}.

(** The call passes the safety checks and reaches [create_order]. *)
Definition proceeds (v : venue) (sym side : string) (force : bool) (st : tm_state) : Prop :=
  force = true \/ fst (safety_checks v sym (lower side) st) = Ret false.

(** The parameters sent with the order. *)
Definition sent_params (params : option (gmap string pyval)) (force : bool) :
    gmap string pyval :=
  if force then setdefault "reduce_only" (VBool true) (default ∅ params)
  else default ∅ params.

(** Every identity recorded in [st] is still recorded in [st']. *)
Definition keeps (st st' : pt_state) : Prop :=
  (forall k, is_Some (position_max_profit st !! k) ->
             is_Some (position_max_profit st' !! k))
  /\ (forall k, is_Some (position_trailing_stop st !! k) ->
                is_Some (position_trailing_stop st' !! k)).

(** [m] deletes no identity, whether it returns or raises. *)
Definition preserves {A} (m : M pt_state A) : Prop :=
  forall st, keeps st (snd (m st)).

(** The feed last updated at [t0] is stale at time [t] for the threshold
    [threshold]: [t - t0 > threshold]. *)
Definition stale (threshold t0 t : Q) : bool := Qlt_bool threshold (t - t0).

(** [t] lies within [threshold + 3] time units of the last update. *)
Definition in_window (threshold t0 t : Q) : bool := Qle_bool (t - t0) (threshold + 3).

(** Successive attempts are at least [period] apart. *)
Definition rate_limited (period : Q) (attempts : list Q) : Prop :=
  forall i t t', attempts !! i = Some t -> attempts !! S i = Some t' ->
                 (period <= t' - t)%Q.

End Vocabulary.

(** ** Inputs used in the examples *)

(** A long of one contract whose entry price reads "0". *)
Definition zero_entry_long : position :=
  {| info_product_symbol := Some "BTCUSD";
     info_entry_price := VStr "0";
     info_unrealized_pnl := VNone;
     symbol := None;
     entryPrice := VNone;
     size := VInt 1;
     contracts := VNone |}.

(** A venue that refuses the order: [create_order] raises. *)
Definition rejecting_venue : venue :=
  {| positions_before := Ret [];
     live_open_orders := Ret [];
     now_ms := 0;
     created := Raise VenueError;
     fresh_uuid := "uuid";
     now_ms_order := 0;
     redis_ok := true;
     positions_after := Ret [] |}.

(** A [TradeManager] that has placed no order yet. *)
Definition tm_init : tm_state := {| orders := ∅; archive := []; venue_calls := [] |}.

(** A long of one contract entered at 200. *)
Definition long_200 : position :=
  {| info_product_symbol := Some "BTCUSD";
     info_entry_price := VStr "200";
     info_unrealized_pnl := VNone;
     symbol := None;
     entryPrice := VNone;
     size := VInt 1;
     contracts := VNone |}.

(** A long of one contract for which the venue reports no entry price. *)
Definition no_entry_long : position :=
  {| info_product_symbol := Some "BTCUSD";
     info_entry_price := VNone;
     info_unrealized_pnl := VNone;
     symbol := None;
     entryPrice := VNone;
     size := VInt 1;
     contracts := VNone |}.

(** The tracker after a first cycle that polled [long_100] at price 150. *)
Definition after_first_cycle : pt_state :=
  snd (track_cycle 10 (Ret [long_100]) (Some 150%Q) (fun _ => quiet_venue) pt_init).




(** A venue that accepts the close but still reports [long_100] afterwards. *)
Definition stuck_venue : venue :=
  {| positions_before := Ret [];
     live_open_orders := Ret [];
     now_ms := 0;
     created := Ret {| r_id := Some "o1"; r_status := Some "open"; r_timestamp := Some 5%Z |};
     fresh_uuid := "uuid";
     now_ms_order := 0;
     redis_ok := true;
     positions_after := Ret [long_100] |}.

(** A cached open buy of one contract, stamped [timestamp] ms. *)
Definition cached_order (id : string) (timestamp : Z) : order_info :=
  {| oi_id := id; oi_symbol := Some "BTCUSD"; oi_side := Some "buy";
     oi_amount := Some 1%Q; oi_params := ∅; oi_status := Some "open";
     oi_timestamp := Some timestamp |}.

(** A cache with one order of age 60000 ms and one of age 61000 ms at the
    time [idle_venue] is read. *)
Definition tm_cached : tm_state :=
  {| orders := <["fresh" := cached_order "fresh" 1000]>
                 (<["old" := cached_order "old" 0]> ∅);
     archive := []; venue_calls := [] |}.

(** * The rest of the tracker, the order book and the signal loop *)

(** ** Vocabulary of the tracker's invariants *)

(** [m] relates every state to the state it leaves, whether it returns or
    raises. *)
Definition stable (R : pt_state -> pt_state -> Prop) {A} (m : M pt_state A) : Prop :=
  forall st, R st (snd (m st)).

(** [I] holds after whenever it holds before. *)
Definition keeps_invariant (I : pt_state -> Prop) (st st' : pt_state) : Prop :=
  I st -> I st'.

(** The position cache and its clock are the same in both states. *)
Definition same_poll (st st' : pt_state) : Prop :=
  cached_positions st' = cached_positions st
  /\ last_position_fetch_time st' = last_position_fetch_time st
  /\ position_fetch_interval st' = position_fetch_interval st.

(** The two trailing tables record the same identities. *)
Definition tables_aligned (st : pt_state) : Prop :=
  forall k, is_Some (position_max_profit st !! k)
            <-> is_Some (position_trailing_stop st !! k).

(** No recorded excursion is negative. *)
Definition excursions_nonneg (st : pt_state) : Prop :=
  forall k m, position_max_profit st !! k = Some m -> (0 <= m)%Q.

(** What happens to a tracker during its life: a cycle of [track] with the
    inputs it reads, or the signal processor writing the flag. *)
Inductive tracker_event : Type :=
| Cycle (now : Q) (poll : res (list position)) (current_price : option Q)
        (venues : nat -> venue)
| Flag (b : bool).

Section Tracker.
Context `{PyFloat} `{Config}.

(** One event applied to the tracker and to the flag telling whether the
    thread of [track] still runs: a cycle that raises ends the thread, and
    the later cycles do not happen. *)
Definition tracker_step (t : pt_state * bool) (e : tracker_event) : pt_state * bool :=
  match e with
  | Cycle now poll current_price venues =>
      if t.2 then
        match track_cycle now poll current_price venues t.1 with
        | (Ret _, st') => (st', true)
        | (Raise _, st') => (st', false)
        end
      else t
  | Flag b => (set_take_profit_detected b t.1, t.2)
  end.

(** The tracker after the events [es]. *)
Definition tracker_run (es : list tracker_event) (st : pt_state) : pt_state :=
  (fold_left tracker_step es (st, true)).1.

(** The part of a cycle of [track] that follows the poll. *)
Definition track_tail (current_price : option Q) (venues : nat -> venue) : M pt_state unit :=
  match current_price with
  | None => mret tt
  | Some live_price =>
      cached ← gets cached_positions;
      (if match cached with [] => false | _ :: _ => true end
       then modify (set_last_had_positions true)
       else mret tt) ;;
      track_positions live_price venues 0 cached
  end.

(** [pos] is on a symbol that starts with [sym] and is open in the
    direction of [side]. *)
Definition opened_in_direction (sym side : string) (pos : position) : Prop :=
  startswith (str_or (info_product_symbol pos) (str_or (symbol pos) "")) sym = true
  /\ ((lower side = "buy" /\ (0 < float_or (size_value pos) 0)%Q)
      \/ (lower side = "sell" /\ (float_or (size_value pos) 0 < 0)%Q)).

(** Every position on a symbol that starts with [sym] has a size that
    converts to zero. *)
Definition flat_on (sym : string) (positions : list position) : Prop :=
  forall pos, pos ∈ positions ->
    startswith (str_or (info_product_symbol pos) (default "" (symbol pos))) sym = true ->
    exists s, py_float (size_value pos) = Ret s /\ s == 0.

(** [data] is a tick the handler accepts: a JSON object with the keys
    ["p"], ["q"] and ["m"] whose ["p"] converts to [price]. *)
Definition complete_tick (data : res (gmap string pyval)) (price : Q) : Prop :=
  exists d p, data = Ret d /\ d !! "p" = Some p /\ is_Some (d !! "q")
              /\ is_Some (d !! "m") /\ py_float p = Ret price.

End Tracker.

(** ** [OrderManager]: the local order book *)

(** [order['params'].update(new)] on a cached order. *)
Definition update_params (new : gmap string pyval) (o : order_info) : order_info :=
  {| oi_id := oi_id o; oi_symbol := oi_symbol o; oi_side := oi_side o;
     oi_amount := oi_amount o; oi_params := new ∪ oi_params o;
     oi_status := oi_status o; oi_timestamp := oi_timestamp o |}.

(** [OrderManager.modify_bracket_order]; [redis_up] tells whether the
    archive store answers. *)
Definition modify_bracket_order (redis_up : bool) (order_id : string)
    (new_bracket_params : gmap string pyval) : M tm_state order_info :=
  cached ← gets (fun st => orders st !! order_id);
  match cached with
  | None => raise ValueError
  | Some o =>
      let o' := update_params new_bracket_params o in
      modify (set_orders (insert order_id o')) ;;
      _store_order redis_up o' ;;
      mret o'
  end.

(** [order['status'] = 'canceled'] *)
Definition mark_canceled (o : order_info) : order_info :=
  {| oi_id := oi_id o; oi_symbol := oi_symbol o; oi_side := oi_side o;
     oi_amount := oi_amount o; oi_params := oi_params o;
     oi_status := Some "canceled"; oi_timestamp := oi_timestamp o |}.

(** [OrderManager.cancel_order]; [answer] is what the venue's
    [cancel_order] returns or raises.  The list of raw answers kept under
    [ORDER_INFO_KEY] is only ever written and is left out of the state. *)
Definition cancel_order {A : Type} (answer : res A) (redis_up : bool)
    (order_id : string) : M tm_state A :=
  cached ← gets (fun st => orders st !! order_id);
  match cached with
  | None => raise ValueError
  | Some order =>
      api_response ← lift_res answer;
      let order' := mark_canceled order in
      modify (set_orders (insert order_id order')) ;;
      _store_order redis_up order' ;;
      mret api_response
  end.

(** An entry of [fetch_open_orders] as [OrderManager.is_order_open] and the
    signal processor read it; a field is [None] when the key is missing. *)
Record live_order : Type := {
  lo_id : string;
  lo_side : option string;
  lo_status : option string
}.

(** [order.get("status", "").lower() == "open"] *)
Definition is_open (o : live_order) : bool :=
  String.eqb (lower (default "" (lo_status o))) "open".

(** [order.get("side", "").lower()] *)
Definition order_side (o : live_order) : string :=
  lower (default "" (lo_side o)).

(** [SignalProcessor.open_pending_order_exists]; the same loop opens
    [OrderManager.is_order_open]. *)
Definition open_pending_order_exists (fetched : res (list live_order))
    (side : string) : bool :=
  match fetched with
  | Raise _ => false
  | Ret orders =>
      existsb (fun order =>
        String.eqb (order_side order) (lower side) && is_open order) orders
  end.

(** [order.get('symbol') == symbol and
     order.get('side', '').lower() == side.lower() and
     order.get('status', '').lower() == 'open'] on a cached order. *)
Definition cached_open (sym side : string) (o : order_info) : bool :=
  bool_decide (oi_symbol o = Some sym)
  && String.eqb (lower (default "" (oi_side o))) (lower side)
  && String.eqb (lower (default "" (oi_status o))) "open".


(** ** [TradeManager.monitor_trailing_stop] *)

(** The [TradeManager] that runs [monitor_trailing_stop]: its order manager
    and its attribute [highest_price]. *)
Record monitor_state : Type := {
  monitor_orders : tm_state;
  highest_price : option Q
}.

Definition set_monitor_orders (t : tm_state) (st : monitor_state) : monitor_state :=
  {| monitor_orders := t; highest_price := highest_price st |}.

Definition set_highest_price (h : option Q) (st : monitor_state) : monitor_state :=
  {| monitor_orders := monitor_orders st; highest_price := h |}.

Section Monitor.
Context `{PyFloat}.


(** [TradeManager.get_current_price]; [ticker] is the ["last"] entry of the
    answer of [fetch_ticker], or the error it raised. *)
Definition get_current_price (ticker : res pyval) : res Q :=
  match ticker with
  | Ret last => py_float last
  | Raise e => Raise e
  end.

(** The stop-loss request built from the highest price. *)
Definition stop_loss_order (highest trailing_stop_percent : Q) : gmap string pyval :=
  let new_stop_loss := (highest * (1 - trailing_stop_percent / 100))%Q in
  {[ "order_type" := VStr "limit_order";
     "stop_price" := VStr (str_of_float (round2 new_stop_loss));
     "limit_price" := VStr (str_of_float (round2 (new_stop_loss * 0.99))) ]}.

(** The statements of [monitor_trailing_stop] before its loop; [false]
    stands for the early [return]. *)
Definition monitor_start (ticker : res pyval) : M monitor_state bool :=
  match get_current_price ticker with
  | Ret price => modify (set_highest_price (Some price)) ;; mret true
  | Raise _ => mret false
  end.

(** One iteration of [while True] in [monitor_trailing_stop]. *)
Definition monitor_iteration (bracket_order_id : string) (trailing_stop_percent : Q)
    (ticker : res pyval) (redis_up : bool) : M monitor_state unit :=
  match get_current_price ticker with
  | Raise _ => mret tt (* continue *)
  | Ret current_price =>
      highest ← gets highest_price;
      (if Qlt_bool (default 0%Q highest) current_price
       then modify (set_highest_price (Some current_price))
       else mret tt) ;;
      highest ← gets highest_price;
      match highest with
      | None => raise TypeError
      | Some h =>
          try_except
            (modified ← zoom monitor_orders set_monitor_orders
                          (modify_bracket_order redis_up bracket_order_id
                             (stop_loss_order h trailing_stop_percent));
             mret tt)
            (fun _ => mret tt)
      end
  end.

(** The iterations for the successive answers [ticks]. *)
Fixpoint monitor_loop (bracket_order_id : string) (trailing_stop_percent : Q)
    (ticks : list (res pyval * bool)) : M monitor_state unit :=
  match ticks with
  | [] => mret tt
  | (ticker, redis_up) :: rest =>
      monitor_iteration bracket_order_id trailing_stop_percent ticker redis_up ;;
      monitor_loop bracket_order_id trailing_stop_percent rest
  end.

(** [TradeManager.monitor_trailing_stop] for the first answer [first] and
    the answers [ticks] of the iterations that follow. *)
Definition monitor_trailing_stop (bracket_order_id : string) (trailing_stop_percent : Q)
    (first : res pyval) (ticks : list (res pyval * bool)) : M monitor_state unit :=
  started ← monitor_start first;
  if started : bool then monitor_loop bracket_order_id trailing_stop_percent ticks
  else mret tt.

End Monitor.

(** ** [SignalProcessor] *)

(** [SignalProcessor.cancel_conflicting_orders]: the ids handed to
    [cancel_order], in program order.  A cancellation that raises is logged
    and the loop goes on, so the requests do not depend on the answers. *)
Definition cancel_conflicting_orders (fetched : res (list live_order))
    (new_side : string) : list string :=
  match fetched with
  | Raise _ => []
  | Ret orders =>
      flat_map (fun order =>
        if negb (is_open order) then []
        else if String.eqb new_side ""
                || negb (String.eqb (order_side order) (lower new_side))
             then [lo_id order] else []) orders
  end.

(** [SignalProcessor.cancel_same_side_orders] *)
Definition cancel_same_side_orders (fetched : res (list live_order))
    (side : string) : list string :=
  match fetched with
  | Raise _ => []
  | Ret pending_orders =>
      flat_map (fun order =>
        if String.eqb (order_side order) (lower side) && is_open order
        then [lo_id order] else []) pending_orders
  end.

(** The ids of the entries whose status reads open. *)
Definition open_ids (fetched : res (list live_order)) : list string :=
  match fetched with
  | Raise _ => []
  | Ret orders => map lo_id (List.filter is_open orders)
  end.

(** A signal as [signals_are_different] reads it: the entry
    [last_signal.text], [None] when [last_signal] or [text] is missing. *)
Record signal : Type := {
  sig_text : option string
}.

(** The state of [process_signals_loop]: [self.last_signal], the signals
    handed to [process_signal] so far, and whether the loop still runs. *)
Record sp_state : Type := {
  sp_last_signal : option signal;
  sp_processed : list signal;
  sp_running : bool
}.

Definition sp_init : sp_state :=
  {| sp_last_signal := None; sp_processed := []; sp_running := true |}.

(** No two neighbours of the list are equal. *)
Fixpoint no_repeats (l : list string) : Prop :=
  match l with
  | a :: (b :: _) as rest => a <> b /\ no_repeats rest
  | _ => True
  end.

Section Signals.
(** [str.strip] *)
Variable strip : string -> string.

(** [signal.get("last_signal", {}).get("text", "").strip().lower()] *)
Definition signal_key (s : signal) : string :=
  lower (strip (default "" (sig_text s))).

(** [SignalProcessor.signals_are_different] *)
Definition signals_are_different (new_signal : signal) (old_signal : option signal) : bool :=
  let new_text := signal_key new_signal in
  if String.eqb new_text "" then false
  else
    let old_text := match old_signal with
                    | Some old => signal_key old
                    | None => ""
                    end in
    negb (String.eqb new_text old_text).

(** One turn of [process_signals_loop]: [fetched] is the answer of
    [fetch_signal] and [completes] tells whether [process_signal] returns;
    when it raises, nothing catches the exception and the loop ends. *)
Definition process_signals_step (st : sp_state) (turn : option signal * bool) : sp_state :=
  if negb (sp_running st) then st
  else
    match turn with
    | (Some signal_data, completes) =>
        if signals_are_different signal_data (sp_last_signal st)
        then
          {| sp_last_signal := if completes then Some signal_data else sp_last_signal st;
             sp_processed := sp_processed st ++ [signal_data];
             sp_running := completes |}
        else st
    | (None, _) => st
    end.

Definition process_signals_loop (turns : list (option signal * bool)) : sp_state :=
  fold_left process_signals_step turns sp_init.

(** What the loop maintains: every processed signal has a text, no two in a
    row have the same one, and the last is the one remembered. *)
Definition signals_invariant (st : sp_state) : Prop :=
  Forall (fun s => signal_key s <> "") (sp_processed st)
  /\ no_repeats (signal_key <$> sp_processed st)
  /\ (sp_running st = true -> sp_last_signal st = last (sp_processed st)).

End Signals.

(** ** [DeltaExchangeClient.quantize_price] *)

(** [Decimal.__floordiv__]: the quotient with its fraction cut off. *)
Definition floordiv (a b : Q) : Z :=
  let x := (a / b)%Q in Z.quot (Qnum x) (Zpos (Qden x)).

(** [quantize_price] for the tick size [tick] that [get_tick_size]
    returns; [None] when the division raises. *)
Definition quantize_price (tick price : Q) : option Q :=
  if Qeq_bool tick 0 then None
  else Some (inject_Z (floordiv price tick) * tick)%Q.

(** ** Inputs used in the further examples *)

(** A venue whose position and open-order requests both fail. *)
Definition blind_venue : venue :=
  {| positions_before := Raise VenueError;
     live_open_orders := Raise VenueError;
     now_ms := 0;
     created := Ret {| r_id := Some "o3"; r_status := None; r_timestamp := None |};
     fresh_uuid := "uuid";
     now_ms_order := 0;
     redis_ok := true;
     positions_after := Ret [] |}.

(** A trade tick of the price feed. *)
Definition trade_tick : gmap string pyval :=
  {[ "p" := VStr "100"; "q" := VStr "1"; "m" := VBool true ]}.

(** A monitor that has seen the price 100 and holds the cache [tm_cached]. *)
Definition monitor_at_100 : monitor_state :=
  {| monitor_orders := tm_cached; highest_price := Some 100%Q |}.

(** Three live orders: an open buy, an open sell and a closed buy. *)
Definition live_book : list live_order :=
  [ {| lo_id := "a"; lo_side := Some "buy"; lo_status := Some "open" |};
    {| lo_id := "b"; lo_side := Some "Sell"; lo_status := Some "OPEN" |};
    {| lo_id := "c"; lo_side := Some "buy"; lo_status := Some "closed" |} ].

(** Two signals of the signal list. *)
Definition buy_signal : signal := {| sig_text := Some "Buy" |}.

Definition sell_signal : signal := {| sig_text := Some "sell" |}.

(** * Properties *)

Local Open Scope list_scope.

(** Unfolds the state transformers of a goal. *)
Ltac run_monad :=
  unfold mbind, M_bind, try_except, zoom, gets, modify, lift_res, raise, call, mret, M_ret;
  cbn [fst snd].

(** ** Comparisons, division and the call log *)

Lemma Qlt_bool_iff a b : Qlt_bool a b = true <-> (a < b)%Q.
Proof.
  unfold Qlt_bool. rewrite negb_true_iff.
  split.
  - intros Hf. apply Qnot_le_lt. intros Hle.
    apply Qle_bool_iff in Hle. congruence.
  - intros Hlt. destruct (Qle_bool b a) eqn:E; [|reflexivity].
    apply Qle_bool_iff in E. exfalso. exact (Qlt_not_le _ _ Hlt E).
Qed.

Lemma Qlt_bool_false_iff a b : Qlt_bool a b = false <-> (b <= a)%Q.
Proof.
  unfold Qlt_bool. rewrite negb_false_iff. apply Qle_bool_iff.
Qed.

Lemma py_div_nonzero a b : ~ b == 0 -> py_div a b = Ret (a / b)%Q.
Proof.
  intros Hb. unfold py_div.
  destruct (Qeq_bool b 0) eqn:E; [|reflexivity].
  apply Qeq_bool_eq in E. contradiction.
Qed.

Lemma py_div_zero a b : b == 0 -> py_div a b = Raise ZeroDivisionError.
Proof.
  intros Hb. unfold py_div. now rewrite (Qeq_eq_bool _ _ Hb).
Qed.

Lemma create_order_count_app l l' :
  create_order_count (l ++ l') = (create_order_count l + create_order_count l')%nat.
Proof.
  unfold create_order_count. now rewrite List.filter_app, length_app.
Qed.

(** ** [update_trailing_stop] *)

Section UpdateFacts.
Context `{PyFloat} `{Config}.

Lemma update_trailing_stop_tracked pos live_price st entry size_num :
  tracked pos entry size_num ->
  update_trailing_stop pos live_price st =
    let key := position_key pos in
    let new_max := Qmax (mfe st key) (current_profit entry size_num live_price) in
    let '(stop, ru) :=
      if take_profit_detected st && Qle_bool 400 new_max
      then (lock_half_stop entry size_num new_max, lock_50)
      else (fixed_offset_stop entry size_num, fixed_stop) in
    (match py_div new_max entry with
     | Ret p => Ret (Some (stop, p, ru))
     | Raise e => Raise e
     end,
     set_position_trailing_stop (insert key stop)
       (set_position_max_profit (insert key new_max) st)).
Proof.
  intros (He & Hs & Hz).
  unfold update_trailing_stop. rewrite He, Hs, Hz.
  run_monad; cbn.
  fold (mfe st (position_key pos)).
  unfold current_profit, lock_half_stop, fixed_offset_stop.
  destruct (take_profit_detected st && Qle_bool 400 _); cbn;
    destruct (py_div _ entry); reflexivity.
Qed.

Lemma update_trailing_stop_untracked pos live_price st :
  (forall entry, py_float (entry_value pos) <> Ret entry)
  \/ Qeq_bool (float_or (size_value pos) 0) 0 = true ->
  update_trailing_stop pos live_price st = (Ret None, st).
Proof.
  unfold update_trailing_stop.
  destruct (py_float (entry_value pos)) as [entry|e]; [|reflexivity].
  intros [Hno|Hz]; [destruct (Hno entry); reflexivity|].
  rewrite Hz. reflexivity.
Qed.

(** A position is either evaluated or ignored. *)
Lemma tracked_dec pos :
  (exists entry size_num, tracked pos entry size_num)
  \/ update_trailing_stop pos = fun _ st => (Ret None, st).
Proof.
  destruct (py_float (entry_value pos)) as [entry|e] eqn:He.
  - destruct (Qeq_bool (float_or (size_value pos) 0) 0) eqn:Hz.
    + right. unfold update_trailing_stop. rewrite He, Hz. reflexivity.
    + left. exists entry, (float_or (size_value pos) 0). repeat split; assumption.
  - right. unfold update_trailing_stop. rewrite He. reflexivity.
Qed.

Lemma update_max_profit_tracked pos live_price st entry size_num :
  tracked pos entry size_num ->
  position_max_profit (snd (update_trailing_stop pos live_price st)) =
    <[position_key pos :=
        Qmax (mfe st (position_key pos)) (current_profit entry size_num live_price)]>
      (position_max_profit st).
Proof.
  intros Ht. rewrite (update_trailing_stop_tracked _ _ _ _ _ Ht). cbn zeta.
  destruct (take_profit_detected st && _); reflexivity.
Qed.

Lemma update_mfe_le pos live_price st k :
  (mfe st k <= mfe (snd (update_trailing_stop pos live_price st)) k)%Q.
Proof.
  destruct (tracked_dec pos) as [(entry & size_num & Ht)|Hu].
  - unfold mfe at 2. rewrite (update_max_profit_tracked _ _ _ _ _ Ht).
    destruct (decide (position_key pos = k)) as [->|Hne].
    + rewrite lookup_insert_eq. cbn. apply Q.le_max_l.
    + rewrite lookup_insert_ne by assumption. apply Qle_refl.
  - rewrite Hu. apply Qle_refl.
Qed.

Lemma act_mfe_le a st k : (mfe st k <= mfe (act st a) k)%Q.
Proof.
  destruct a as [pos live_price|flag]; cbn.
  - apply update_mfe_le.
  - apply Qle_refl.
Qed.

Lemma run_mfe_le actions st k : (mfe st k <= mfe (run actions st) k)%Q.
Proof.
  revert st. induction actions as [|a actions IH]; intros st; cbn.
  - apply Qle_refl.
  - eapply Qle_trans; [apply (act_mfe_le a)|apply IH].
Qed.

(** C1. Over every sequence of trailing-stop updates (any positions, any
    live prices, with the take-profit flag changing in between) the
    excursion recorded for an identity [k] never decreases.  An update of
    an evaluated position stores, under the position's own key, the larger
    of the previous record (zero when there is none) and the current signed
    profit; it leaves the record of every other identity as it was, so an
    identity starts from zero only when its key is new. *)
Theorem max_profit_non_decreasing (actions : list pt_action) (st : pt_state) (k : string) :
  (mfe st k <= mfe (run actions st) k)%Q
  /\ (forall pos live_price entry size_num,
        tracked pos entry size_num ->
        position_max_profit (snd (update_trailing_stop pos live_price st))
          !! position_key pos
        = Some (Qmax (mfe st (position_key pos))
                     (current_profit entry size_num live_price)))
  /\ (forall pos live_price,
        position_key pos <> k ->
        position_max_profit (snd (update_trailing_stop pos live_price st)) !! k
        = position_max_profit st !! k).
Proof.
  split; [apply run_mfe_le|split].
  - intros pos live_price entry size_num Ht.
    rewrite (update_max_profit_tracked _ _ _ _ _ Ht). apply lookup_insert_eq.
  - intros pos live_price Hne.
    destruct (tracked_dec pos) as [(entry & size_num & Ht)|Hu].
    + rewrite (update_max_profit_tracked _ _ _ _ _ Ht).
      apply lookup_insert_ne. assumption.
    + rewrite Hu. reflexivity.
Qed.

End UpdateFacts.


(** ** [place_market_order] in closed form *)

Section TradeManagerFacts.
Context `{PyFloat}.

Lemma place_market_order_forced v sym side amount params st :
  place_market_order v sym side amount params true st =
  execute v sym side amount
    (setdefault "reduce_only" (VBool true) (default ∅ params)) true st.
Proof.
  unfold place_market_order, execute, _store_order. run_monad. cbn.
  destruct (created v) as [order|e]; [|reflexivity].
  fold (recorded v sym side amount
          (setdefault "reduce_only" (VBool true) (default ∅ params)) order).
  destruct (redis_ok v); cbn; rewrite <- ?app_assoc; cbn;
    (destruct (positions_after v) as [after|e]; [|reflexivity]);
    (destruct (still_open sym after) as [[|]|e]; reflexivity).
Qed.

Lemma place_market_order_unforced v sym side amount params st :
  place_market_order v sym side amount params false st =
  match safety_checks v sym (lower side) st with
  | (Ret true, st') => (Ret None, st')
  | (Ret false, st') => execute v sym side amount (default ∅ params) false st'
  | (Raise e, st') => (Raise e, st')
  end.
Proof.
  unfold place_market_order. run_monad.
  destruct (safety_checks v sym (lower side) st) as [[[|]|e] st']; try reflexivity.
  unfold execute, _store_order. run_monad. cbn.
  destruct (created v) as [order|e]; [|reflexivity].
  fold (recorded v sym side amount (default ∅ params) order).
  destruct (redis_ok v); cbn; rewrite <- ?app_assoc; cbn;
    (destruct (positions_after v) as [after|e]; [|reflexivity]);
    (destruct (existsb _ after); reflexivity).
Qed.

End TradeManagerFacts.

(** ** The safety checks of a call that is not forced *)

Section SafetyFacts.
Context `{PyFloat}.

Lemma safety_checks_eq v sym side_lower st :
  safety_checks v sym side_lower st =
  let st1 := {| orders := orders st; archive := archive st;
                venue_calls := venue_calls st ++ [CallFetchPositions] |} in
  if position_check v sym side_lower then (Ret true, st1)
  else
    let st2 := {| orders := orders st; archive := archive st;
                  venue_calls := venue_calls st
                                 ++ [CallFetchPositions; CallFetchOpenOrders sym] |} in
    if order_check v side_lower then (Ret true, st2)
    else
      (Ret (bool_decide (map_Exists (fun _ o => local_pending side_lower o = true)
                           (prune_stale (now_ms v) (orders st)))),
       {| orders := prune_stale (now_ms v) (orders st); archive := archive st;
          venue_calls := venue_calls st
                         ++ [CallFetchPositions; CallFetchOpenOrders sym] |}).
Proof.
  unfold safety_checks, check_open_position, check_pending_order, check_local_pending,
    position_check, order_check.
  run_monad. cbn.
  destruct (positions_before v) as [ps|e]; cbn.
  - destruct (existsb _ ps); [reflexivity|].
    destruct (live_open_orders v) as [os|e]; cbn; rewrite <- ?app_assoc; cbn.
    + destruct (existsb _ os); reflexivity.
    + reflexivity.
  - destruct (live_open_orders v) as [os|e']; cbn; rewrite <- ?app_assoc; cbn.
    + destruct (existsb _ os); reflexivity.
    + reflexivity.
Qed.



Lemma prune_stale_lookup now (m : gmap string order_info) id o :
  prune_stale now m !! id = Some o <->
  m !! id = Some o /\ (now - default 0 (oi_timestamp o) <= 60000)%Z.
Proof.
  unfold prune_stale. rewrite map_lookup_filter_Some. cbn. unfold is_stale.
  rewrite Z.ltb_ge. reflexivity.
Qed.



End SafetyFacts.

(** ** [book_profit] *)

Section BookProfitFacts.
Context `{PyFloat} `{Config}.

Lemma book_profit_branch_eq ru v size_num live_price stop :
  book_profit_branch ru v size_num live_price stop =
  if Qlt_bool 0 size_num && Qlt_bool live_price stop
  then close_position v "sell" size_num
  else if Qlt_bool size_num 0 && Qlt_bool stop live_price
       then close_position v "buy" (Qabs size_num)
       else mret false.
Proof. destruct ru; reflexivity. Qed.

Lemma close_position_eq v side amount st :
  close_position v side amount st =
  let '(r, t) := execute v SYMBOL side amount close_params true (trade_manager st) in
  (match r with Ret _ => Ret true | Raise _ => Ret false end, set_trade_manager t st).
Proof.
  unfold close_position. run_monad.
  rewrite place_market_order_forced.
  change (setdefault "reduce_only" (VBool true) (default ∅ ioc)) with close_params.
  destruct (execute _ _ _ _ _ _ _) as [[r|e] t]; reflexivity.
Qed.

Lemma close_position_frame v side amount st :
  position_max_profit (snd (close_position v side amount st)) = position_max_profit st
  /\ position_trailing_stop (snd (close_position v side amount st))
     = position_trailing_stop st.
Proof.
  rewrite close_position_eq.
  destruct (execute _ _ _ _ _ _ _) as [r t]. split; reflexivity.
Qed.

Lemma book_profit_branch_frame ru v size_num live_price stop st :
  position_max_profit (snd (book_profit_branch ru v size_num live_price stop st))
  = position_max_profit st
  /\ position_trailing_stop (snd (book_profit_branch ru v size_num live_price stop st))
     = position_trailing_stop st.
Proof.
  rewrite book_profit_branch_eq.
  destruct (_ && _); [apply close_position_frame|].
  destruct (_ && _); [apply close_position_frame|].
  split; reflexivity.
Qed.

Lemma book_profit_frame v pos live_price st :
  position_max_profit (snd (book_profit v pos live_price st))
  = position_max_profit (snd (update_trailing_stop pos live_price st))
  /\ position_trailing_stop (snd (book_profit v pos live_price st))
     = position_trailing_stop (snd (update_trailing_stop pos live_price st)).
Proof.
  unfold book_profit. run_monad.
  destruct (update_trailing_stop pos live_price st) as [[[[[stop p] ru]|]|e] st'];
    cbn [fst snd]; try (split; reflexivity).
  apply book_profit_branch_frame.
Qed.

(** [book_profit] returns [False] for a position that the update ignores. *)
Lemma book_profit_untracked v pos live_price st :
  (forall entry, py_float (entry_value pos) <> Ret entry)
  \/ Qeq_bool (float_or (size_value pos) 0) 0 = true ->
  book_profit v pos live_price st = (Ret false, st).
Proof.
  intros Hu. unfold book_profit. run_monad.
  now rewrite (update_trailing_stop_untracked _ _ _ Hu).
Qed.

Lemma execute_create_count v sym side amount params force st :
  create_order_count (venue_calls (snd (execute v sym side amount params force st)))
  = S (create_order_count (venue_calls st)).
Proof.
  unfold execute. destruct (created v) as [order|e]; cbn [snd venue_calls].
  - rewrite !create_order_count_app. destruct (redis_ok v); cbn; lia.
  - rewrite create_order_count_app. cbn. lia.
Qed.

Lemma close_position_create_count v side amount st :
  create_order_count (venue_calls (trade_manager (snd (close_position v side amount st))))
  = S (create_order_count (venue_calls (trade_manager st))).
Proof.
  rewrite close_position_eq.
  pose proof (execute_create_count v SYMBOL side amount close_params true
                (trade_manager st)) as Hc.
  destruct (execute _ _ _ _ _ _ _) as [r t]. exact Hc.
Qed.

Lemma book_profit_tracked v pos live_price st entry size_num :
  tracked pos entry size_num -> ~ entry == 0 ->
  book_profit v pos live_price st =
    let st' := snd (update_trailing_stop pos live_price st) in
    match fst (update_trailing_stop pos live_price st) with
    | Ret (Some (stop, _, _)) =>
        if breached size_num live_price stop
        then close_position v (if Qlt_bool 0 size_num then "sell" else "buy")
               (if Qlt_bool 0 size_num then size_num else Qabs size_num) st'
        else (Ret false, st')
    | _ => (Ret false, st')
    end.
Proof.
  intros Ht Hne. pose proof Ht as (He & Hs & Hz).
  unfold book_profit. run_monad. rewrite Hs.
  rewrite (update_trailing_stop_tracked _ _ _ _ _ Ht). cbn zeta.
  rewrite (py_div_nonzero _ _ Hne).
  assert (Hexcl : Qlt_bool 0 size_num = true -> Qlt_bool size_num 0 = false).
  { intros Hl. apply Qlt_bool_false_iff. apply Qlt_bool_iff in Hl.
    now apply Qlt_le_weak. }
  destruct (take_profit_detected st && _); cbn [fst snd];
    rewrite book_profit_branch_eq; unfold breached;
    (destruct (Qlt_bool 0 size_num) eqn:Hl;
     [rewrite (Hexcl eq_refl); cbn [andb orb];
      destruct (Qlt_bool live_price _); reflexivity
     |cbn [andb orb]; destruct (Qlt_bool size_num 0 && _); reflexivity]).
Qed.

End BookProfitFacts.

(** ** The two stop rules *)

Section Rules.
Context `{PyFloat} `{Config}.

Lemma update_trailing_stop_stored pos live_price st entry size_num :
  tracked pos entry size_num ->
  forall stop p ru,
    fst (update_trailing_stop pos live_price st) = Ret (Some (stop, p, ru)) ->
    position_trailing_stop (snd (update_trailing_stop pos live_price st))
      !! position_key pos = Some stop.
Proof.
  intros Ht stop p ru. rewrite (update_trailing_stop_tracked _ _ _ _ _ Ht). cbn zeta.
  destruct (take_profit_detected st && _); cbn [fst snd];
    destruct (py_div _ entry); intros [= <- _ _]; cbn; apply lookup_insert_eq.
Qed.

(** With an entry price equal to zero the update raises, after it has
    stored the excursion and the stop. *)
Lemma update_trailing_stop_zero_entry pos live_price st entry size_num :
  tracked pos entry size_num -> entry == 0 ->
  fst (update_trailing_stop pos live_price st) = Raise ZeroDivisionError.
Proof.
  intros Ht Hz. rewrite (update_trailing_stop_tracked _ _ _ _ _ Ht). cbn zeta.
  rewrite (py_div_zero _ _ Hz).
  destruct (take_profit_detected st && _); reflexivity.
Qed.

(** C2 (amended: the entry price is not zero).  For a position with a
    parseable non-zero size and a parseable non-zero entry price, when the
    take-profit flag is set and the updated excursion is at least 400, the
    update returns the rule [lock_50] with the stop at entry plus half the
    excursion for a long and entry minus half the excursion for a short,
    and records both values under the position's key; a long entered at
    100 with an excursion of 450 gets the stop 325. *)
Theorem lock_half_rule (pos : position) (live_price : Q) (st : pt_state)
    (entry size_num : Q) :
  tracked pos entry size_num ->
  ~ entry == 0 ->
  take_profit_detected st = true ->
  let new_max := Qmax (mfe st (position_key pos))
                      (current_profit entry size_num live_price) in
  (400 <= new_max)%Q ->
  fst (update_trailing_stop pos live_price st)
    = Ret (Some (lock_half_stop entry size_num new_max, (new_max / entry)%Q, lock_50))
  /\ position_max_profit (snd (update_trailing_stop pos live_price st))
       !! position_key pos = Some new_max
  /\ position_trailing_stop (snd (update_trailing_stop pos live_price st))
       !! position_key pos = Some (lock_half_stop entry size_num new_max)
  /\ ((0 < size_num)%Q -> entry == 100 -> new_max == 450 ->
      lock_half_stop entry size_num new_max == 325).
Proof.
  intros Ht Hne Hflag new_max Hmax.
  assert (Hr : fst (update_trailing_stop pos live_price st)
    = Ret (Some (lock_half_stop entry size_num new_max, (new_max / entry)%Q, lock_50))).
  { rewrite (update_trailing_stop_tracked _ _ _ _ _ Ht). cbn zeta. fold new_max.
    rewrite Hflag. apply Qle_bool_iff in Hmax. rewrite Hmax. cbn.
    now rewrite (py_div_nonzero _ _ Hne). }
  split; [exact Hr|split; [|split]].
  - rewrite (update_max_profit_tracked _ _ _ _ _ Ht). apply lookup_insert_eq.
  - exact (update_trailing_stop_stored _ _ _ _ _ Ht _ _ _ Hr).
  - intros Hlong He Hm. unfold lock_half_stop.
    apply Qlt_bool_iff in Hlong. rewrite Hlong, He, Hm. reflexivity.
Qed.

Lemma breached_iff size_num live_price stop :
  breached size_num live_price stop = true <->
  ((0 < size_num)%Q /\ (live_price < stop)%Q)
  \/ ((size_num < 0)%Q /\ (stop < live_price)%Q).
Proof.
  unfold breached. rewrite orb_true_iff, !andb_true_iff, !Qlt_bool_iff. reflexivity.
Qed.

(** C3 (amended: the entry price is not zero).  For a position with a
    parseable non-zero size and a parseable non-zero entry price, when the
    take-profit flag is clear or the updated excursion is below 400, the
    update returns the rule [fixed_stop] with the stop at
    entry - entry * FIXED_STOP_OFFSET_PERCENT / 100 for a long and
    entry + entry * FIXED_STOP_OFFSET_PERCENT / 100 for a short, a value in
    which the live price does not occur.  [book_profit] then sends one
    close order to the venue exactly when the stop is breached (live price
    below the stop of a long, above the stop of a short) and none
    otherwise.  With entry 100 and offset 0.6 the stop of a long is 99.4
    and it is breached exactly when the live price is below 99.4. *)
Theorem fixed_stop_rule (v : venue) (pos : position) (live_price : Q) (st : pt_state)
    (entry size_num : Q) :
  tracked pos entry size_num ->
  ~ entry == 0 ->
  let new_max := Qmax (mfe st (position_key pos))
                      (current_profit entry size_num live_price) in
  take_profit_detected st = false \/ (new_max < 400)%Q ->
  let stop := fixed_offset_stop entry size_num in
  fst (update_trailing_stop pos live_price st)
    = Ret (Some (stop, (new_max / entry)%Q, fixed_stop))
  /\ create_order_count
       (venue_calls (trade_manager (snd (book_profit v pos live_price st))))
     = (create_order_count (venue_calls (trade_manager st))
        + (if breached size_num live_price stop then 1 else 0))%nat
  /\ (breached size_num live_price stop = true <->
      ((0 < size_num)%Q /\ (live_price < stop)%Q)
      \/ ((size_num < 0)%Q /\ (stop < live_price)%Q))
  /\ (entry == 100 -> FIXED_STOP_OFFSET_PERCENT == 0.6 -> (0 < size_num)%Q ->
      stop == 99.4
      /\ (breached size_num live_price stop = true <-> (live_price < 99.4)%Q)).
Proof.
  intros Ht Hne new_max Hsel stop.
  assert (Hcond : take_profit_detected st && Qle_bool 400 new_max = false).
  { destruct Hsel as [-> |Hlt]; [reflexivity|].
    apply Qlt_bool_iff in Hlt. unfold Qlt_bool in Hlt.
    apply negb_true_iff in Hlt. rewrite Hlt. apply andb_false_r. }
  assert (Hu : update_trailing_stop pos live_price st
    = (Ret (Some (stop, (new_max / entry)%Q, fixed_stop)),
       set_position_trailing_stop (insert (position_key pos) stop)
         (set_position_max_profit (insert (position_key pos) new_max) st))).
  { rewrite (update_trailing_stop_tracked _ _ _ _ _ Ht). cbn zeta. fold new_max.
    rewrite Hcond. now rewrite (py_div_nonzero _ _ Hne). }
  split; [now rewrite Hu|split; [|split; [apply breached_iff|]]].
  - rewrite (book_profit_tracked _ _ _ _ _ _ Ht Hne). cbn zeta. rewrite Hu. cbn [fst snd].
    destruct (breached size_num live_price stop).
    + rewrite close_position_create_count. cbn. lia.
    + cbn. lia.
  - intros He Hp Hlong.
    assert (Hs : stop == 99.4).
    { unfold stop, fixed_offset_stop. apply Qlt_bool_iff in Hlong.
      rewrite Hlong, He, Hp. reflexivity. }
    split; [exact Hs|].
    rewrite breached_iff. rewrite Hs. split.
    + intros [[_ Hb]|[Hn _]]; [exact Hb|].
      exfalso. apply (Qlt_irrefl 0). now apply Qlt_trans with size_num.
    + intros Hb. left. split; assumption.
Qed.

End Rules.

Lemma tracked_zero_entry_long : tracked zero_entry_long 0 1.
Proof. repeat split. Qed.

(** C2, counterexample.  A long of one contract whose entry price parses to
    zero, with the flag set and an excursion of 500: the update raises
    [ZeroDivisionError] where the specification promises the [lock_50] result. *)
Lemma lock_half_rule_zero_entry :
  let st := set_take_profit_detected true pt_init in
  tracked zero_entry_long 0 1
  /\ take_profit_detected st = true
  /\ (400 <= Qmax (mfe st (position_key zero_entry_long)) (current_profit 0 1 500))%Q
  /\ fst (update_trailing_stop zero_entry_long 500 st) = Raise ZeroDivisionError.
Proof.
  cbn zeta. split; [exact tracked_zero_entry_long|split; [reflexivity|split]].
  - apply Qle_bool_iff. vm_compute. reflexivity.
  - vm_compute. reflexivity.
Qed.

(** C3, counterexample.  The same position with the flag clear: the update
    raises [ZeroDivisionError] where the specification promises the [fixed_stop]
    result, and [book_profit] raises with it. *)
Lemma fixed_stop_rule_zero_entry :
  tracked zero_entry_long 0 1
  /\ take_profit_detected pt_init = false
  /\ fst (update_trailing_stop zero_entry_long 50 pt_init) = Raise ZeroDivisionError
  /\ fst (book_profit quiet_venue zero_entry_long 50 pt_init) = Raise ZeroDivisionError.
Proof.
  split; [exact tracked_zero_entry_long|split; [reflexivity|split]];
    vm_compute; reflexivity.
Qed.

(** ** Execution, verification and the records kept *)

Section Executor.
Context `{PyFloat} `{Config}.

(** C5. A forced call whose order is accepted and whose verification finds
    the symbol still open returns absent, and it leaves both trailing
    tables of the tracker exactly as they were.  The tables after
    [book_profit] are therefore the tables written by its own update,
    whatever the close attempt did, and an evaluated position still has
    its excursion and its stop recorded for the next cycle. *)
Theorem failed_close_keeps_trailing_state (v : venue) (sym side : string) (amount : Q)
    (params : option (gmap string pyval)) (st : pt_state)
    (order : order_response) (after : list position) :
  created v = Ret order ->
  positions_after v = Ret after ->
  still_open sym after = Ret true ->
  let out := zoom trade_manager set_trade_manager
               (place_market_order v sym side amount params true) st in
  fst out = Ret None
  /\ position_max_profit (snd out) = position_max_profit st
  /\ position_trailing_stop (snd out) = position_trailing_stop st
  /\ (forall pos live_price,
        position_max_profit (snd (book_profit v pos live_price st))
        = position_max_profit (snd (update_trailing_stop pos live_price st))
        /\ position_trailing_stop (snd (book_profit v pos live_price st))
           = position_trailing_stop (snd (update_trailing_stop pos live_price st)))
  /\ (forall pos live_price entry size_num,
        tracked pos entry size_num ->
        is_Some (position_max_profit (snd (book_profit v pos live_price st))
                   !! position_key pos)
        /\ is_Some (position_trailing_stop (snd (book_profit v pos live_price st))
                      !! position_key pos)).
Proof.
  intros Hc Ha Hopen out. unfold out. run_monad.
  rewrite place_market_order_forced. unfold execute. rewrite Hc, Ha, Hopen.
  cbn [fst snd]. split; [reflexivity|split; [reflexivity|split; [reflexivity|split]]].
  - intros pos live_price. apply book_profit_frame.
  - intros pos live_price entry size_num Ht.
    destruct (book_profit_frame v pos live_price st) as [-> ->]. split.
    + rewrite (update_max_profit_tracked _ _ _ _ _ Ht). rewrite lookup_insert_eq. eauto.
    + rewrite (update_trailing_stop_tracked _ _ _ _ _ Ht). cbn zeta.
      destruct (take_profit_detected st && _); cbn; rewrite lookup_insert_eq; eauto.
Qed.

Lemma last_ltrim_last n (l : list order_info) o :
  last (ltrim_last (S n) (l ++ [o])) = Some o.
Proof.
  unfold ltrim_last. rewrite length_app. cbn [length].
  rewrite drop_app_le by lia. apply last_snoc.
Qed.


(** C10. The two branches of the rule test in [book_profit] are the same
    computation, and [book_profit] is the rule-free [close_on_breach]: a
    long below its stop is closed by selling its full size, a short above
    its stop by buying its absolute size, both forced with
    [time_in_force = ioc], and the boolean returned is the same.  Every
    such close reaches the venue as a market order with the parameters
    [time_in_force = ioc] and [reduce_only = True]. *)
Theorem book_profit_rule_independent (v : venue) (pos : position) (live_price : Q)
    (size_num stop : Q) (side : string) (st : pt_state) :
  book_profit_branch lock_50 v size_num live_price stop
    = book_profit_branch fixed_stop v size_num live_price stop
  /\ book_profit v pos live_price st = close_on_breach v pos live_price st
  /\ exists rest : list venue_call,
       venue_calls (trade_manager (snd (close_position v side size_num st)))
       = (venue_calls (trade_manager st)
          ++ CallCreateOrder SYMBOL "market" side size_num close_params :: rest)%list.
Proof.
  split; [reflexivity|split].
  - unfold book_profit, close_on_breach. run_monad.
    destruct (update_trailing_stop pos live_price st) as [[[[[ts p] ru]|]|e] st'];
      try reflexivity.
    apply (f_equal (fun m => m st')), book_profit_branch_eq.
  - rewrite close_position_eq. unfold execute.
    destruct (created v) as [order|e]; cbn [snd trade_manager set_trade_manager venue_calls].
    + eexists. cbn. reflexivity.
    + exists []. reflexivity.
Qed.

End Executor.


(** ** One cycle of [track] *)

Section TrackFacts.
Context `{PyFloat} `{Config}.

(** [track] skips a position whose size converts to zero. *)
Lemma track_position_zero_size live_price v pos st :
  Qeq_bool (float_or (size_value pos) 0) 0 = true ->
  track_position live_price v pos st = (Ret tt, st).
Proof. intros Hz. unfold track_position. now rewrite Hz. Qed.

(** [track] does not skip a position of non-zero size whose entry price
    does not convert: unless an equal display is already stored for it,
    formatting the log line raises [TypeError]. *)
Lemma track_position_without_entry live_price v pos st :
  (forall entry, py_float (entry_value pos) <> Ret entry) ->
  Qeq_bool (float_or (size_value pos) 0) 0 = false ->
  last_display st !! display_key pos = None ->
  track_position live_price v pos st = (Raise TypeError, st).
Proof.
  intros Hno Hz Hnone.
  assert (He : exists e, py_float (entry_value pos) = Raise e).
  { destruct (py_float (entry_value pos)) as [entry|e]; [destruct (Hno entry); reflexivity|].
    now exists e. }
  destruct He as [e He].
  unfold track_position. rewrite Hz.
  unfold compute_profit_pct. rewrite He.
  run_monad.
  rewrite (update_trailing_stop_untracked pos live_price st (or_introl Hno)).
  cbn [fst snd].
  destruct (py_float (py_or (info_unrealized_pnl pos) (VInt 0)));
    destruct (py_float (py_or (info_entry_price pos) (VInt 0)));
    cbn [fst snd]; rewrite Hnone; reflexivity.
Qed.



Lemma keeps_tables st st' :
  position_max_profit st' = position_max_profit st ->
  position_trailing_stop st' = position_trailing_stop st ->
  keeps st st'.
Proof. intros E1 E2. split; intros k; rewrite ?E1, ?E2; auto. Qed.











Lemma preserves_set_poll now ps : preserves (modify (set_poll now ps)).
Proof. intros st. now apply keeps_tables. Qed.





End TrackFacts.

Section Poll.
Context `{PyFloat} `{Config}.



End Poll.


(** C9, the failing input.  The update itself returns the absent result for
    a position without entry price, and [book_profit] returns [False] for
    it; but the first cycle of [track] that meets the position raises
    [TypeError] while it formats its log line, instead of skipping the
    position. *)
Theorem track_raises_on_missing_entry :
  update_trailing_stop no_entry_long 100 pt_init = (Ret None, pt_init)
  /\ fst (book_profit quiet_venue no_entry_long 100 pt_init) = Ret false
  /\ fetch_open_positions (Ret [no_entry_long]) = [no_entry_long]
  /\ fst (track_cycle 10 (Ret [no_entry_long]) (Some 100%Q) (fun _ => quiet_venue)
            pt_init) = Raise TypeError.
Proof.
  repeat split; vm_compute; reflexivity.
Qed.

(** ** The watchdog of the price feed *)

Lemma monitor_poll_fields now st :
  last_update_time (monitor_poll now st) = last_update_time st
  /\ reconnect_interval (monitor_poll now st) = reconnect_interval st.
Proof. unfold monitor_poll. destruct (Qlt_bool _ _); split; reflexivity. Qed.

Lemma monitor_poll_reconnects now st :
  reconnects (monitor_poll now st) =
  reconnects st
  ++ List.filter (stale (reconnect_interval st) (last_update_time st)) [now].
Proof.
  unfold monitor_poll, stale. cbn.
  destruct (Qlt_bool _ _); cbn; [reflexivity|now rewrite app_nil_r].
Qed.

Lemma monitor_connection_reconnects n clock st :
  reconnects (_monitor_connection n clock st) =
  reconnects st
  ++ List.filter (stale (reconnect_interval st) (last_update_time st)) (wakes n clock).
Proof.
  revert clock st. induction n as [|n IH]; intros clock st; cbn [_monitor_connection wakes].
  - now rewrite app_nil_r.
  - rewrite IH. destruct (monitor_poll_fields (clock + 3) st) as [-> ->].
    rewrite monitor_poll_reconnects. rewrite <- app_assoc.
    change ((clock + 3)%Q :: wakes n (clock + 3))
      with ([(clock + 3)%Q] ++ wakes n (clock + 3)).
    now rewrite List.filter_app.
Qed.

Lemma wakes_after n clock t : In t (wakes n clock) -> (clock + 3 <= t)%Q.
Proof.
  revert clock. induction n as [|n IH]; intros clock; cbn; [tauto|].
  intros [<-|Hin]; [apply Qle_refl|].
  apply IH in Hin. lra.
Qed.

Lemma wakes_step n clock i t t' :
  wakes n clock !! i = Some t -> wakes n clock !! S i = Some t' -> t' = (t + 3)%Q.
Proof.
  revert clock i. induction n as [|n IH]; intros clock i; cbn; [discriminate|].
  destruct i as [|i]; cbn.
  - intros [= <-]. destruct n; cbn; [discriminate|]. now intros [= <-].
  - apply IH.
Qed.

Lemma stale_mono threshold t0 t t' :
  stale threshold t0 t = true -> (t <= t')%Q -> stale threshold t0 t' = true.
Proof. unfold stale. rewrite !Qlt_bool_iff. lra. Qed.

Lemma filter_stale_all threshold t0 n clock :
  stale threshold t0 clock = true ->
  List.filter (stale threshold t0) (wakes n clock) = wakes n clock.
Proof.
  intros Hs. apply forallb_filter_id. apply forallb_forall.
  intros t Hin. eapply stale_mono; [exact Hs|].
  pose proof (wakes_after n clock t Hin). lra.
Qed.

Lemma filter_none {A} (f : A -> bool) (l : list A) :
  (forall x, In x l -> f x = false) -> List.filter f l = [].
Proof.
  induction l as [|x l IH]; intros Hf; cbn; [reflexivity|].
  rewrite (Hf x) by now left. apply IH. intros y Hy. apply Hf. now right.
Qed.

Lemma filter_window_none threshold t0 n clock :
  stale threshold t0 clock = true ->
  List.filter (in_window threshold t0) (wakes n clock) = [].
Proof.
  intros Hs. apply filter_none.
  intros t Hin. apply wakes_after in Hin.
  unfold stale in Hs. apply Qlt_bool_iff in Hs.
  unfold in_window. destruct (Qle_bool (t - t0) (threshold + 3)) eqn:E; [|reflexivity].
  apply Qle_bool_iff in E. lra.
Qed.

Lemma one_attempt_in_window threshold t0 n clock :
  (clock - t0 <= threshold)%Q ->
  (exists t, In t (wakes n clock) /\ stale threshold t0 t = true) ->
  length (List.filter (in_window threshold t0)
            (List.filter (stale threshold t0) (wakes n clock))) = 1%nat.
Proof.
  revert clock. induction n as [|n IH]; intros clock Hfresh (t & Hin & Hs);
    cbn [wakes] in *; [destruct Hin|].
  cbn [List.filter].
  destruct (stale threshold t0 (clock + 3)) eqn:Hfirst.
  - rewrite (filter_stale_all _ _ _ _ Hfirst).
    cbn [List.filter].
    assert (Hw : in_window threshold t0 (clock + 3) = true).
    { unfold in_window. apply Qle_bool_iff. lra. }
    rewrite Hw. cbn [length]. f_equal.
    rewrite (filter_window_none _ _ _ _ Hfirst). reflexivity.
  - apply IH.
    + unfold stale in Hfirst. apply Qlt_bool_false_iff in Hfirst. exact Hfirst.
    + destruct Hin as [<-|Hin]; [congruence|]. exists t. split; assumption.
Qed.

Lemma attempts_one_poll_apart threshold t0 n clock i t t' :
  List.filter (stale threshold t0) (wakes n clock) !! i = Some t ->
  List.filter (stale threshold t0) (wakes n clock) !! S i = Some t' ->
  t' = (t + 3)%Q.
Proof.
  revert clock. induction n as [|n IH]; intros clock; cbn [wakes List.filter];
    [discriminate|].
  destruct (stale threshold t0 (clock + 3)) eqn:Hfirst.
  - rewrite (filter_stale_all _ _ _ _ Hfirst).
    apply (wakes_step (S n) clock i t t').
  - apply IH.
Qed.

(** C8 (amended).  Let no message arrive after the last update, and let the
    watchdog, polling every 3 time units, start the run while the feed is
    not yet stale and go on until some poll finds it stale.  Then the
    attempts are exactly the polls that find the feed stale; exactly one of
    them falls within threshold + 3 time units of the last update; and
    from then on every poll attempts again, so that successive attempts
    are one poll period apart, whatever the threshold. *)
Theorem watchdog_retries_every_poll (n : nat) (clock : Q) (st : ws_state) :
  reconnects st = [] ->
  (clock - last_update_time st <= reconnect_interval st)%Q ->
  (exists t, In t (wakes n clock)
             /\ stale (reconnect_interval st) (last_update_time st) t = true) ->
  let attempts := reconnects (_monitor_connection n clock st) in
  attempts = List.filter (stale (reconnect_interval st) (last_update_time st))
               (wakes n clock)
  /\ length (List.filter (in_window (reconnect_interval st) (last_update_time st))
               attempts) = 1%nat
  /\ (forall i t t', attempts !! i = Some t -> attempts !! S i = Some t' ->
                     t' = (t + 3)%Q).
Proof.
  intros Hnone Hfresh Hlong attempts.
  assert (Ha : attempts
    = List.filter (stale (reconnect_interval st) (last_update_time st)) (wakes n clock)).
  { unfold attempts. rewrite monitor_connection_reconnects, Hnone. reflexivity. }
  rewrite Ha. split; [reflexivity|split].
  - now apply one_attempt_in_window.
  - intros i t t'. apply attempts_one_poll_apart.
Qed.

(** C8, counterexample.  With the default threshold of 10 and silence from
    time 0, seven polls give four attempts, at 12, 15, 18 and 21: one per
    poll.  They are 3 apart, so they are not limited to one per threshold
    period, nor to one per threshold period less a poll. *)
Lemma watchdog_is_not_rate_limited :
  reconnects (_monitor_connection 7 0 (ws_init 0)) = [12; 15; 18; 21]%Q
  /\ ~ rate_limited (10 - 3) (reconnects (_monitor_connection 7 0 (ws_init 0))).
Proof.
  assert (E : reconnects (_monitor_connection 7 0 (ws_init 0)) = [12; 15; 18; 21]%Q)
    by (vm_compute; reflexivity).
  rewrite E. split; [reflexivity|].
  intros Hr. specialize (Hr 0%nat 12%Q 15%Q eq_refl eq_refl).
  revert Hr. apply Qlt_not_le. reflexivity.
Qed.

(** ** The theorems at concrete inputs *)

(** C1 at [long_100]: ticks at 150 and 120 with a signal in between. *)
Lemma max_profit_non_decreasing_witness :
  (mfe pt_init "BTCUSD_100_1"
   <= mfe (run [Tick long_100 150; Signal true; Tick long_100 120] pt_init)
        "BTCUSD_100_1")%Q
  /\ position_max_profit (snd (update_trailing_stop long_100 150 pt_init))
       !! position_key long_100
     = Some (Qmax (mfe pt_init (position_key long_100)) (current_profit 100 1 150))
  /\ position_max_profit (snd (update_trailing_stop long_200 250 pt_init))
       !! "BTCUSD_100_1"
     = position_max_profit pt_init !! "BTCUSD_100_1".
Proof.
  destruct (max_profit_non_decreasing
              [Tick long_100 150; Signal true; Tick long_100 120] pt_init "BTCUSD_100_1")
    as (Hmono & Hstore & Hother).
  split; [exact Hmono|split].
  - apply Hstore. repeat split.
  - apply Hother. vm_compute. intros E. discriminate E.
Defined.

(** C2 at [long_100] with the flag set and a tick at 550: the excursion is
    450 and the stop 325. *)
Lemma lock_half_rule_witness :
  let st := set_take_profit_detected true pt_init in
  let new_max := Qmax (mfe st (position_key long_100)) (current_profit 100 1 550) in
  fst (update_trailing_stop long_100 550 st)
    = Ret (Some (lock_half_stop 100 1 new_max, (new_max / 100)%Q, lock_50))
  /\ lock_half_stop 100 1 new_max == 325.
Proof.
  cbn zeta.
  destruct (lock_half_rule long_100 550 (set_take_profit_detected true pt_init) 100 1)
    as (Hr & _ & _ & Hex).
  - repeat split.
  - intros E. vm_compute in E. discriminate E.
  - reflexivity.
  - apply Qle_bool_iff. vm_compute. reflexivity.
  - split; [exact Hr|]. apply Hex.
    + reflexivity.
    + reflexivity.
    + vm_compute. reflexivity.
Defined.

(** C3 at [long_100] with the default offset and a tick at 99: the stop is
    99.4, it is breached, and one close order is sent. *)
Lemma fixed_stop_rule_witness :
  fst (update_trailing_stop long_100 99 pt_init)
    = Ret (Some (fixed_offset_stop 100 1,
                 (Qmax (mfe pt_init (position_key long_100)) (current_profit 100 1 99)
                  / 100)%Q,
                 fixed_stop))
  /\ fixed_offset_stop 100 1 == 99.4
  /\ create_order_count
       (venue_calls (trade_manager (snd (book_profit quiet_venue long_100 99 pt_init))))
     = 1%nat.
Proof.
  destruct (fixed_stop_rule quiet_venue long_100 99 pt_init 100 1)
    as (Hr & Hcount & _ & Hex).
  - repeat split.
  - intros E. vm_compute in E. discriminate E.
  - left. reflexivity.
  - destruct Hex as [Hstop Hbreach].
    + reflexivity.
    + vm_compute. reflexivity.
    + reflexivity.
    + split; [exact Hr|split; [exact Hstop|]].
      rewrite Hcount. rewrite (proj2 Hbreach); reflexivity.
Defined.


(** C5 at a venue that still reports the position after the close. *)
Lemma failed_close_keeps_trailing_state_witness :
  let out := zoom trade_manager set_trade_manager
               (place_market_order stuck_venue "BTCUSD" "sell" 1 ioc true)
               after_first_cycle in
  fst out = Ret None
  /\ position_max_profit (snd out) = position_max_profit after_first_cycle
  /\ position_trailing_stop (snd out) = position_trailing_stop after_first_cycle.
Proof.
  cbn zeta.
  destruct (failed_close_keeps_trailing_state stuck_venue "BTCUSD" "sell" 1 ioc
              after_first_cycle
              {| r_id := Some "o1"; r_status := Some "open"; r_timestamp := Some 5%Z |}
              [long_100])
    as (Hres & Hmax & Hstop & _).
  - reflexivity.
  - reflexivity.
  - reflexivity.
  - split; [exact Hres|split; [exact Hmax|exact Hstop]].
Defined.



(** C8 for silence from time 0 with the default threshold and seven polls. *)
Lemma watchdog_retries_every_poll_witness :
  let attempts := reconnects (_monitor_connection 7 0 (ws_init 0)) in
  attempts = List.filter (stale 10 0) (wakes 7 0)
  /\ length (List.filter (in_window 10 0) attempts) = 1%nat
  /\ (forall i t t', attempts !! i = Some t -> attempts !! S i = Some t' ->
                     t' = (t + 3)%Q).
Proof.
  apply (watchdog_retries_every_poll 7 0 (ws_init 0)).
  - reflexivity.
  - apply Qle_bool_iff. reflexivity.
  - exists 12%Q. split; [|reflexivity].
    cbn. right. right. right. left. reflexivity.
Defined.

(** ** The trailing stop, evaluated again *)

Lemma Qmax_absorb a b : Qmax (Qmax a b) b = Qmax a b.
Proof.
  unfold Qmax, GenericMinMax.gmax.
  destruct (a ?= b)%Q eqn:E; rewrite ?E; try reflexivity.
  now rewrite (proj1 (Qeq_alt b b) (Qeq_refl b)).
Qed.

Section UpdateMore.
Context `{PyFloat} `{Config}.

(** X1. Evaluating [update_trailing_stop] a second time for the same position
    at the same live price changes nothing: the second call returns what the
    first returned and leaves the state the first left. *)
Theorem update_trailing_stop_idempotent (pos : position) (live_price : Q) (st : pt_state) :
  update_trailing_stop pos live_price (snd (update_trailing_stop pos live_price st))
  = update_trailing_stop pos live_price st.
Proof.
  destruct (tracked_dec pos) as [(entry & size_num & Ht)|Hu].
  - rewrite !(update_trailing_stop_tracked _ _ _ _ _ Ht). cbn zeta.
    set (m := Qmax (mfe st (position_key pos)) (current_profit entry size_num live_price)).
    assert (Hm : forall stop,
      mfe (set_position_trailing_stop (insert (position_key pos) stop)
             (set_position_max_profit (insert (position_key pos) m) st))
          (position_key pos) = m).
    { intros stop. unfold mfe. cbn. now rewrite lookup_insert_eq. }
    assert (Ha : Qmax m (current_profit entry size_num live_price) = m)
      by (unfold m; apply Qmax_absorb).
    destruct (take_profit_detected st && Qle_bool 400 m) eqn:Hc; cbn [snd];
      rewrite Hm, Ha;
      cbn [take_profit_detected set_position_trailing_stop set_position_max_profit];
      rewrite Hc;
      unfold set_position_trailing_stop, set_position_max_profit; cbn;
      rewrite !insert_insert_eq; reflexivity.
  - rewrite Hu. reflexivity.
Qed.

End UpdateMore.

(** ** Relations that every step of [track] respects *)

Section Stable.
Context `{PyFloat} `{Config}.
Context (R : pt_state -> pt_state -> Prop) `{!PreOrder R}.

Lemma stable_ret {A} (a : A) : stable R (mret a).
Proof. intros st. reflexivity. Qed.

Lemma stable_raise {A} (e : exn) : stable R (@raise pt_state A e).
Proof. intros st. reflexivity. Qed.

Lemma stable_gets {A} (f : pt_state -> A) : stable R (gets f).
Proof. intros st. reflexivity. Qed.

Lemma stable_lift_res {A} (r : res A) : stable R (@lift_res pt_state A r).
Proof. intros st. reflexivity. Qed.

Lemma stable_modify (f : pt_state -> pt_state) :
  (forall st, R st (f st)) -> stable R (modify f).
Proof. intros Hf st. apply Hf. Qed.

Lemma stable_bind {A B} (m : M pt_state A) (f : A -> M pt_state B) :
  stable R m -> (forall a, stable R (f a)) -> stable R (m ≫= f).
Proof.
  intros Hm Hf st. unfold mbind, M_bind.
  specialize (Hm st). destruct (m st) as [[a|e] st1]; cbn [snd] in *.
  - etransitivity; [exact Hm|apply Hf].
  - exact Hm.
Qed.

Lemma stable_try_except {A} (m : M pt_state A) (h : exn -> M pt_state A) :
  stable R m -> (forall e, stable R (h e)) -> stable R (try_except m h).
Proof.
  intros Hm Hh st. unfold try_except.
  specialize (Hm st). destruct (m st) as [[a|e] st1]; cbn [snd] in *.
  - exact Hm.
  - etransitivity; [exact Hm|apply Hh].
Qed.

(** What [R] has to allow for the loop of [track] to be stable. *)
Hypothesis R_update : forall pos live_price, stable R (update_trailing_stop pos live_price).
Hypothesis R_display : forall f st, R st (set_last_display f st).
Hypothesis R_trade_manager : forall t st, R st (set_trade_manager t st).

Lemma stable_close_position v side amount : stable R (close_position v side amount).
Proof.
  intros st. rewrite close_position_eq.
  destruct (execute _ _ _ _ _ _ _) as [r t]. apply R_trade_manager.
Qed.

Lemma stable_book_profit v pos live_price : stable R (book_profit v pos live_price).
Proof.
  unfold book_profit. apply stable_bind; [apply R_update|].
  intros [[[stop p] ru]|]; [|apply stable_ret].
  rewrite book_profit_branch_eq.
  destruct (_ && _); [apply stable_close_position|].
  destruct (_ && _); [apply stable_close_position|apply stable_ret].
Qed.

Lemma stable_track_position live_price v pos : stable R (track_position live_price v pos).
Proof.
  unfold track_position.
  destruct (Qeq_bool (float_or (size_value pos) 0) 0); [apply stable_ret|].
  apply stable_bind; [apply stable_lift_res|intros pct].
  apply stable_bind; [apply R_update|intros r].
  apply stable_bind; [apply stable_gets|intros max_profit].
  destruct (py_float (py_or (info_unrealized_pnl pos) (VInt 0)));
    destruct (py_float (py_or (info_entry_price pos) (VInt 0)));
    (apply stable_bind; [apply stable_gets|intros previous];
     apply stable_bind;
     [match goal with
      | |- stable R (if ?b then _ else _) => destruct b
      end;
      [apply stable_ret|];
      destruct (py_float (entry_value pos)); destruct r as [[[? ?] ?]|];
      first [apply stable_modify, R_display|apply stable_raise]
     |intros _;
      apply stable_try_except;
      [apply stable_bind; [apply stable_book_profit|intros b; apply stable_ret]
      |intros err; apply stable_ret]]).
Qed.

Lemma stable_track_positions live_price venues i ps :
  stable R (track_positions live_price venues i ps).
Proof.
  revert i. induction ps as [|pos ps IH]; intros i; cbn [track_positions].
  - apply stable_ret.
  - apply stable_bind; [apply stable_track_position|intros _; apply IH].
Qed.

Hypothesis R_had : forall b st, R st (set_last_had_positions b st).

Lemma stable_track_tail current_price venues :
  stable R
    (match current_price with
     | None => mret tt
     | Some live_price =>
         cached ← gets cached_positions;
         (if match cached with [] => false | _ :: _ => true end
          then modify (set_last_had_positions true)
          else mret tt) ;;
         track_positions live_price venues 0 cached
     end).
Proof.
  destruct current_price as [live_price|]; [|apply stable_ret].
  apply stable_bind; [apply stable_gets|intros cached].
  apply stable_bind.
  - destruct cached; [apply stable_ret|apply stable_modify, R_had].
  - intros _. apply stable_track_positions.
Qed.

Hypothesis R_poll : forall now ps st, R st (set_poll now ps st).
Hypothesis R_clear : forall st, R st (clear_trailing st).

Lemma stable_track_cycle now poll current_price venues :
  stable R (track_cycle now poll current_price venues).
Proof.
  unfold track_cycle.
  apply stable_bind; [apply stable_gets|intros last_fetch].
  apply stable_bind; [apply stable_gets|intros interval].
  apply stable_bind.
  - destruct (Qle_bool interval (now - last_fetch)); [|apply stable_ret].
    apply stable_bind; [apply stable_modify, R_poll|intros _].
    apply stable_bind; [apply stable_gets|intros cached].
    destruct cached; [|apply stable_ret].
    apply stable_bind; [apply stable_modify, R_had|intros _].
    apply stable_bind; [apply stable_modify, R_clear|intros _].
    apply stable_ret.
  - intros [|]; [apply stable_ret|apply stable_track_tail].
Qed.

End Stable.

#[global] Instance keeps_invariant_preorder I : PreOrder (keeps_invariant I).
Proof. split; [intros st; exact id|intros a b c Hab Hbc Ha; exact (Hbc (Hab Ha))]. Qed.

#[global] Instance same_poll_preorder : PreOrder same_poll.
Proof.
  split.
  - intros st. repeat split.
  - intros a b c (A1 & A2 & A3) (B1 & B2 & B3).
    repeat split; congruence.
Qed.

Section Invariants.
Context `{PyFloat} `{Config}.

Lemma update_tables_aligned pos live_price :
  stable (keeps_invariant tables_aligned) (update_trailing_stop pos live_price).
Proof.
  intros st Hal k.
  destruct (tracked_dec pos) as [(entry & size_num & Ht)|Hu].
  - rewrite (update_trailing_stop_tracked _ _ _ _ _ Ht). cbn zeta.
    destruct (take_profit_detected st && _); cbn;
      rewrite !lookup_insert_is_Some; specialize (Hal k); tauto.
  - rewrite Hu. apply Hal.
Qed.

Lemma update_excursions_nonneg pos live_price :
  stable (keeps_invariant excursions_nonneg) (update_trailing_stop pos live_price).
Proof.
  intros st Hnn k m.
  destruct (tracked_dec pos) as [(entry & size_num & Ht)|Hu].
  - rewrite (update_max_profit_tracked _ _ _ _ _ Ht).
    destruct (decide (position_key pos = k)) as [->|Hne].
    + rewrite lookup_insert_eq. intros [= <-].
      eapply Qle_trans; [|apply Q.le_max_l].
      unfold mfe. destruct (position_max_profit st !! k) as [m0|] eqn:E; cbn.
      * exact (Hnn k m0 E).
      * apply Qle_refl.
    + rewrite lookup_insert_ne by assumption. apply Hnn.
  - rewrite Hu. apply Hnn.
Qed.

Lemma invariant_of_tables (I : pt_state -> Prop) :
  (forall st st', position_max_profit st' = position_max_profit st ->
                  position_trailing_stop st' = position_trailing_stop st ->
                  I st -> I st') ->
  (forall f st, keeps_invariant I st (set_last_display f st))
  /\ (forall t st, keeps_invariant I st (set_trade_manager t st))
  /\ (forall b st, keeps_invariant I st (set_last_had_positions b st))
  /\ (forall now ps st, keeps_invariant I st (set_poll now ps st))
  /\ (forall b st, keeps_invariant I st (set_take_profit_detected b st)).
Proof.
  intros HI. repeat split; intros; intros Hst; eapply HI; try exact Hst; reflexivity.
Qed.

Lemma tables_aligned_of_tables st st' :
  position_max_profit st' = position_max_profit st ->
  position_trailing_stop st' = position_trailing_stop st ->
  tables_aligned st -> tables_aligned st'.
Proof. intros E1 E2 Hal k. rewrite E1, E2. apply Hal. Qed.

Lemma excursions_nonneg_of_tables st st' :
  position_max_profit st' = position_max_profit st ->
  position_trailing_stop st' = position_trailing_stop st ->
  excursions_nonneg st -> excursions_nonneg st'.
Proof. intros E1 _ Hnn k m. rewrite E1. apply Hnn. Qed.

Lemma track_cycle_tables_aligned now poll current_price venues :
  stable (keeps_invariant tables_aligned) (track_cycle now poll current_price venues).
Proof.
  destruct (invariant_of_tables _ tables_aligned_of_tables) as (Hd & Ht & Hh & Hp & _).
  apply stable_track_cycle; try assumption; try apply _.
  - apply update_tables_aligned.
  - intros st _ k. cbn. rewrite !lookup_empty. reflexivity.
Qed.

Lemma track_cycle_excursions_nonneg now poll current_price venues :
  stable (keeps_invariant excursions_nonneg) (track_cycle now poll current_price venues).
Proof.
  destruct (invariant_of_tables _ excursions_nonneg_of_tables) as (Hd & Ht & Hh & Hp & _).
  apply stable_track_cycle; try assumption; try apply _.
  - apply update_excursions_nonneg.
  - intros st _ k m. cbn. rewrite lookup_empty. discriminate.
Qed.

Lemma tracker_step_keeps (I : pt_state -> Prop) :
  (forall now poll current_price venues,
     stable (keeps_invariant I) (track_cycle now poll current_price venues)) ->
  (forall b st, I st -> I (set_take_profit_detected b st)) ->
  forall es t, I t.1 -> I (fold_left tracker_step es t).1.
Proof.
  intros Hcycle Hflag es. induction es as [|e es IH]; intros [st alive] Hst;
    cbn [fold_left]; [exact Hst|].
  apply IH. destruct e as [now poll current_price venues|b]; cbn [tracker_step fst snd].
  - destruct alive; [|exact Hst].
    pose proof (Hcycle now poll current_price venues st Hst) as Hnext.
    destruct (track_cycle now poll current_price venues st) as [[u|e] st']; exact Hnext.
  - now apply Hflag.
Qed.

(** X2. Along any sequence of cycles of [track] and of writes of the
    take-profit flag, the table of maximum profits and the table of trailing
    stops record the same identities, provided they did at the start. *)
Theorem trailing_tables_stay_aligned (es : list tracker_event) (st : pt_state) :
  tables_aligned st -> tables_aligned (tracker_run es st).
Proof.
  intros Hst. unfold tracker_run.
  apply (tracker_step_keeps tables_aligned); [|intros b s Hs; exact Hs|exact Hst].
  apply track_cycle_tables_aligned.
Qed.

(** X3. Along any sequence of cycles of [track] and of writes of the
    take-profit flag, no recorded maximum profit is negative, provided none
    was at the start. *)
Theorem excursions_stay_nonneg (es : list tracker_event) (st : pt_state) :
  excursions_nonneg st -> excursions_nonneg (tracker_run es st).
Proof.
  intros Hst. unfold tracker_run.
  apply (tracker_step_keeps excursions_nonneg); [|intros b s Hs; exact Hs|exact Hst].
  apply track_cycle_excursions_nonneg.
Qed.

Lemma update_same_poll pos live_price : stable same_poll (update_trailing_stop pos live_price).
Proof.
  intros st.
  destruct (tracked_dec pos) as [(entry & size_num & Ht)|Hu].
  - rewrite (update_trailing_stop_tracked _ _ _ _ _ Ht). cbn zeta.
    destruct (take_profit_detected st && _); repeat split.
  - rewrite Hu. repeat split.
Qed.

Lemma track_tail_same_poll current_price venues :
  stable same_poll (track_tail current_price venues).
Proof.
  apply stable_track_tail; try apply _.
  - apply update_same_poll.
  - intros f st. repeat split.
  - intros t st. repeat split.
  - intros b st. repeat split.
Qed.

Lemma track_cycle_not_due now poll current_price venues st :
  Qle_bool (position_fetch_interval st) (now - last_position_fetch_time st) = false ->
  track_cycle now poll current_price venues st = track_tail current_price venues st.
Proof.
  intros Hdue. unfold track_cycle, track_tail.
  unfold mbind at 1 2 3, M_bind at 1 2 3, gets at 1 2. cbn [fst snd].
  rewrite Hdue. reflexivity.
Qed.

Lemma track_cycle_due now poll current_price venues st :
  Qle_bool (position_fetch_interval st) (now - last_position_fetch_time st) = true ->
  track_cycle now poll current_price venues st =
  let polled := set_poll now (fetch_open_positions poll) st in
  match fetch_open_positions poll with
  | [] => (Ret tt, clear_trailing (set_last_had_positions false polled))
  | _ :: _ => track_tail current_price venues polled
  end.
Proof.
  intros Hdue. unfold track_cycle, track_tail.
  unfold mbind at 1 2 3, M_bind at 1 2 3, gets at 1 2. cbn [fst snd].
  rewrite Hdue.
  unfold mbind at 1 2, M_bind at 1 2, modify at 1, gets at 1. cbn [fst snd].
  cbn [cached_positions set_poll].
  destruct (fetch_open_positions poll) as [|p ps]; reflexivity.
Qed.

(** X4. The positions are polled at most once per fetch interval.  In a
    cycle that is not due, the answer of the venue is not read: the cycle
    does the same for any answer and keeps the cached positions and the
    time of the last fetch.  In a cycle that is due, the cache becomes the
    filtered answer and the time of the last fetch becomes the current
    time. *)
Theorem position_poll_is_cached (now : Q) (poll poll' : res (list position))
    (current_price : option Q) (venues : nat -> venue) (st : pt_state) :
  let due := Qle_bool (position_fetch_interval st) (now - last_position_fetch_time st) in
  let out := track_cycle now poll current_price venues st in
  (due = false ->
   out = track_cycle now poll' current_price venues st
   /\ cached_positions (snd out) = cached_positions st
   /\ last_position_fetch_time (snd out) = last_position_fetch_time st)
  /\ (due = true ->
      cached_positions (snd out) = fetch_open_positions poll
      /\ last_position_fetch_time (snd out) = now).
Proof.
  cbn zeta. split.
  - intros Hdue. rewrite !(track_cycle_not_due _ _ _ _ _ Hdue).
    split; [reflexivity|].
    destruct (track_tail_same_poll current_price venues st) as (E1 & E2 & _).
    split; assumption.
  - intros Hdue. rewrite (track_cycle_due _ _ _ _ _ Hdue). cbn zeta.
    destruct (fetch_open_positions poll) as [|p ps] eqn:Hp.
    + split; reflexivity.
    + destruct (track_tail_same_poll current_price venues
                  (set_poll now (p :: ps) st)) as (E1 & E2 & _).
      split; assumption.
Qed.

End Invariants.

(** ** Profit measures and the filtered poll *)

Section Profit.
Context `{PyFloat} `{Config}.


(** X5. The two profit measures agree with the excursion that the trailing
    stop follows.  For a position with an entry price and a non-zero size,
    [compute_raw_profit] is the profit per contract times the absolute size,
    and [compute_profit_pct] is the profit per contract divided by the entry
    price, raising ZeroDivisionError when the entry price is zero.  Without
    a readable entry price both return None. *)
Theorem profit_measures_agree (pos : position) (live_price : Q) :
  (forall entry size_num,
     tracked pos entry size_num ->
     (exists r, compute_raw_profit pos live_price = Some r
                /\ r == current_profit entry size_num live_price * Qabs size_num)
     /\ (~ entry == 0 ->
         exists p, compute_profit_pct pos live_price = Ret (Some p)
                   /\ p * entry == current_profit entry size_num live_price)
     /\ (entry == 0 -> compute_profit_pct pos live_price = Raise ZeroDivisionError))
  /\ ((forall entry, py_float (entry_value pos) <> Ret entry) ->
      compute_raw_profit pos live_price = None
      /\ compute_profit_pct pos live_price = Ret None).
Proof.
  split.
  - intros entry size_num (He & Hs & Hz).
    unfold compute_raw_profit, compute_profit_pct, current_profit. rewrite He, Hs.
    split; [|split].
    + eexists. split; [reflexivity|].
      destruct (Qlt_bool 0 size_num) eqn:Hl; [|reflexivity].
      apply Qlt_bool_iff in Hl. rewrite Qabs_pos by now apply Qlt_le_weak. reflexivity.
    + intros Hne. destruct (Qlt_bool 0 size_num);
        rewrite (py_div_nonzero _ _ Hne); eexists; (split; [reflexivity|]); now field.
    + intros H0'. destruct (Qlt_bool 0 size_num); now rewrite (py_div_zero _ _ H0').
  - intros Hno. unfold compute_raw_profit, compute_profit_pct.
    destruct (py_float (entry_value pos)) as [entry|e]; [destruct (Hno entry); reflexivity|].
    split; reflexivity.
Qed.



(** X8. When the stop of a position is breached, [book_profit] returns
    True as soon as the venue accepts the closing order, whatever the later
    check of the positions says; it returns False when [create_order] raises
    or when the positions cannot be fetched afterwards.  When the stop is
    not breached it returns False and does no more than
    [update_trailing_stop]. *)
Theorem book_profit_reports_accepted_close (v : venue) (pos : position) (live_price : Q)
    (st : pt_state) (entry size_num stop p : Q) (ru : rule) :
  tracked pos entry size_num ->
  fst (update_trailing_stop pos live_price st) = Ret (Some (stop, p, ru)) ->
  (breached size_num live_price stop = true ->
   (forall order after verdict,
      created v = Ret order -> positions_after v = Ret after ->
      still_open SYMBOL after = Ret verdict ->
      fst (book_profit v pos live_price st) = Ret true)
   /\ (forall e, created v = Raise e ->
                 fst (book_profit v pos live_price st) = Ret false)
   /\ (forall order e, created v = Ret order -> positions_after v = Raise e ->
                       fst (book_profit v pos live_price st) = Ret false))
  /\ (breached size_num live_price stop = false ->
      book_profit v pos live_price st
      = (Ret false, snd (update_trailing_stop pos live_price st))).
Proof.
  intros Ht Hr.
  assert (Hne : ~ entry == 0).
  { intros Hz. pose proof (update_trailing_stop_zero_entry _ live_price st _ _ Ht Hz) as E.
    congruence. }
  rewrite (book_profit_tracked _ _ _ _ _ _ Ht Hne). cbn zeta. rewrite Hr.
  split.
  - intros ->. rewrite close_position_eq. unfold execute.
    split; [|split].
    + intros order after verdict -> -> ->. destruct verdict; reflexivity.
    + intros e ->. reflexivity.
    + intros order e -> ->. reflexivity.
  - intros ->. reflexivity.
Qed.

End Profit.

(** ** More on [place_market_order] *)

Section ExecutorMore.
Context `{PyFloat}.

Lemma still_open_false sym positions :
  still_open sym positions = Ret false <-> flat_on sym positions.
Proof.
  induction positions as [|pos rest IH]; cbn [still_open].
  - split; [intros _ pos Hin; inversion Hin|reflexivity].
  - destruct (startswith _ sym) eqn:Hp.
    + destruct (py_float (size_value pos)) as [s|e] eqn:Hs.
      * destruct (Qeq_bool s 0) eqn:Hz; cbn [negb].
        -- rewrite IH. split.
           ++ intros Hrest p Hin Hpre. apply elem_of_cons in Hin as [->|Hin].
              ** exists s. split; [exact Hs|now apply Qeq_bool_eq].
              ** now apply Hrest.
           ++ intros Hall p Hin Hpre. apply Hall; [now right|exact Hpre].
        -- split; [discriminate|]. intros Hall.
           destruct (Hall pos (list_elem_of_here _ _) Hp) as (s' & Hs' & Hz').
           rewrite Hs in Hs'. injection Hs' as <-.
           apply Qeq_eq_bool in Hz'. congruence.
      * split; [discriminate|]. intros Hall.
        destruct (Hall pos (list_elem_of_here _ _) Hp) as (s' & Hs' & _). congruence.
    + rewrite IH. split.
      * intros Hrest p Hin Hpre. apply elem_of_cons in Hin as [->|Hin].
        -- congruence.
        -- now apply Hrest.
      * intros Hall p Hin Hpre. apply Hall; [now right|exact Hpre].
Qed.

Lemma opened_on_side_iff sym side pos :
  opened_on_side sym (lower side) pos = true <-> opened_in_direction sym side pos.
Proof.
  unfold opened_on_side, opened_in_direction.
  destruct (startswith _ sym); cbn [negb].
  - rewrite orb_true_iff, !andb_true_iff, !String.eqb_eq, !Qlt_bool_iff. tauto.
  - split; [discriminate|]. intros [Hf _]. discriminate.
Qed.

(** X9. An order returned by [place_market_order] has been accepted by the
    venue, is in the local cache under its id, and has passed the check made
    after the delay: for a forced order no position on the symbol is left
    with a non-zero size, for an order that is not forced a position on the
    symbol is open in the direction of the order. *)
Theorem returned_order_is_verified (v : venue) (sym side : string) (amount : Q)
    (params : option (gmap string pyval)) (force : bool) (st : tm_state)
    (info : order_info) :
  let out := place_market_order v sym side amount params force st in
  fst out = Ret (Some info) ->
  orders (snd out) !! oi_id info = Some info
  /\ exists order after,
       created v = Ret order
       /\ positions_after v = Ret after
       /\ info = recorded v sym side amount (sent_params params force) order
       /\ (force = true -> flat_on sym after)
       /\ (force = false ->
           exists pos, pos ∈ after /\ opened_in_direction sym side pos).
Proof.
  cbn zeta. unfold sent_params. destruct force.
  - rewrite place_market_order_forced. unfold execute.
    destruct (created v) as [order|e]; [|discriminate]. cbn [fst snd orders].
    destruct (positions_after v) as [after|e]; [|discriminate].
    destruct (still_open sym after) as [[|]|e] eqn:Hopen; try discriminate.
    intros [= <-]. split; [apply lookup_insert_eq|].
    exists order, after. repeat split; try reflexivity.
    + intros _. now apply still_open_false.
    + discriminate.
  - rewrite place_market_order_unforced.
    destruct (safety_checks v sym (lower side) st) as [[[|]|e] st']; try discriminate.
    unfold execute.
    destruct (created v) as [order|e]; [|discriminate]. cbn [fst snd orders].
    destruct (positions_after v) as [after|e]; [|discriminate].
    destruct (existsb _ after) eqn:Hex; [|discriminate].
    intros [= <-]. split; [apply lookup_insert_eq|].
    exists order, after. repeat split; try reflexivity.
    + discriminate.
    + intros _. apply existsb_exists in Hex as (pos & Hin & Hpos).
      exists pos. split; [now apply list_elem_of_In|now apply opened_on_side_iff].
Qed.

Lemma local_pending_cached now side o :
  (now - default 0 (oi_timestamp o) <= 60000)%Z ->
  local_pending (lower side) o = true -> cached_pending now side o.
Proof.
  intros Hage Hp. unfold local_pending in Hp. apply andb_true_iff in Hp as [Hs Hst].
  apply String.eqb_eq in Hs. repeat split; [exact Hage|exact Hs|].
  destruct (oi_status o) as [s|]; [|discriminate].
  apply orb_true_iff in Hst as [E|E]; apply String.eqb_eq in E; subst; auto.
Qed.

(** X10. The safety checks fail open.  When both [fetch_positions] and
    [fetch_open_orders] raise and the cache holds no recent order on the
    side, an order that is not forced passes the checks and is sent to the
    venue exactly once, with the result it has without the checks. *)
Theorem safety_checks_fail_open (v : venue) (sym side : string) (amount : Q)
    (params : option (gmap string pyval)) (st : tm_state) (e1 e2 : exn) :
  positions_before v = Raise e1 ->
  live_open_orders v = Raise e2 ->
  (forall id o, orders st !! id = Some o -> ~ cached_pending (now_ms v) side o) ->
  let out := place_market_order v sym side amount params false st in
  proceeds v sym side false st
  /\ create_order_count (venue_calls (snd out)) = S (create_order_count (venue_calls st))
  /\ fst out = fst (execute v sym side amount (default ∅ params) false st).
Proof.
  intros Hp Ho Hnone. cbn zeta.
  assert (Hs : safety_checks v sym (lower side) st
    = (Ret false,
       {| orders := prune_stale (now_ms v) (orders st); archive := archive st;
          venue_calls := venue_calls st
                         ++ [CallFetchPositions; CallFetchOpenOrders sym] |})).
  { rewrite safety_checks_eq. cbn zeta. unfold position_check, order_check.
    rewrite Hp, Ho. f_equal. f_equal.
    apply bool_decide_eq_false. intros (id & o & Hl & Hpend).
    apply prune_stale_lookup in Hl as [Hl Hage].
    exact (Hnone id o Hl (local_pending_cached _ _ _ Hage Hpend)). }
  split; [right; now rewrite Hs|].
  rewrite place_market_order_unforced, Hs.
  split.
  - rewrite execute_create_count. cbn [venue_calls].
    rewrite create_order_count_app. cbn. lia.
  - unfold execute. destruct (created v); [|reflexivity].
    destruct (positions_after v); reflexivity.
Qed.

Lemma setdefault_lookup k x (m : gmap string pyval) k' :
  setdefault k x m !! k'
  = if decide (k = k') then Some (default x (m !! k)) else m !! k'.
Proof.
  unfold setdefault. destruct (m !! k) as [y|] eqn:E.
  - destruct (decide (k = k')) as [<-|]; [now rewrite E|reflexivity].
  - rewrite lookup_insert. destruct (decide (k = k')); reflexivity.
Qed.

(** X11. A forced order starts with the [create_order] request and never
    asks the venue for its open orders; the parameters sent carry
    [reduce_only], with the caller's value when the caller gave one and True
    otherwise, and every other parameter as the caller gave it. *)
Theorem forced_order_is_reduce_only (v : venue) (sym side : string) (amount : Q)
    (params : option (gmap string pyval)) (st : tm_state) :
  let out := place_market_order v sym side amount params true st in
  let sent := sent_params params true in
  (exists rest,
     venue_calls (snd out)
     = venue_calls st ++ CallCreateOrder sym "market" side amount sent :: rest
     /\ forall s, CallFetchOpenOrders s ∉ rest)
  /\ sent !! "reduce_only"
     = Some (default (VBool true) (default ∅ params !! "reduce_only"))
  /\ (forall k, k <> "reduce_only" -> sent !! k = default ∅ params !! k).
Proof.
  cbn zeta. split; [|split].
  - rewrite place_market_order_forced. unfold execute, sent_params.
    destruct (created v) as [order|e]; cbn [snd venue_calls].
    + eexists. split; [reflexivity|].
      intros s Hin. destruct (redis_ok v); cbn in Hin;
        repeat (apply elem_of_cons in Hin as [Hin|Hin]; [discriminate|]);
        inversion Hin.
    + exists []. split; [reflexivity|]. intros s Hin. inversion Hin.
  - unfold sent_params. rewrite setdefault_lookup. now destruct (decide _).
  - intros k Hk. unfold sent_params. rewrite setdefault_lookup.
    destruct (decide ("reduce_only" = k)); [congruence|reflexivity].
Qed.


End ExecutorMore.

(** ** More on the price feed *)

Section Feed.
Context `{PyFloat}.

Lemma on_message_complete now (data : res (gmap string pyval)) st price :
  complete_tick data price ->
  _on_message now data st
  = {| current_price := Some price; last_update_time := now;
       reconnect_interval := reconnect_interval st; reconnects := reconnects st |}.
Proof.
  intros (d & p & -> & Hp & [q Hq] & [m Hm] & Hf).
  unfold _on_message. now rewrite Hp, Hq, Hm, Hf.
Qed.

(** X12. [_on_message] takes a tick that carries the keys p, q and m and a
    price that converts to a number: the price becomes the current price and
    the time of the last update becomes the current time.  Any other message
    leaves the feed as it is.  No message changes the reconnect interval or
    the list of reconnect attempts. *)
Theorem on_message_accepts_complete_ticks (now : Q) (data : res (gmap string pyval))
    (st : ws_state) :
  let st' := _on_message now data st in
  (forall price, complete_tick data price ->
     current_price st' = Some price /\ last_update_time st' = now)
  /\ ((forall price, ~ complete_tick data price) -> st' = st)
  /\ reconnect_interval st' = reconnect_interval st
  /\ reconnects st' = reconnects st.
Proof.
  cbn zeta. split; [|split].
  - intros price Htick. rewrite (on_message_complete _ _ _ _ Htick).
    split; reflexivity.
  - intros Hno. unfold _on_message. destruct data as [d|e]; [|reflexivity].
    destruct (d !! "p") as [p|] eqn:Hp; [|reflexivity].
    destruct (d !! "q") as [q|] eqn:Hq; [|reflexivity].
    destruct (d !! "m") as [m|] eqn:Hm; [|reflexivity].
    destruct (py_float p) as [price|e] eqn:Hf; [|reflexivity].
    destruct (Hno price). exists d, p. rewrite Hq, Hm. eauto 10.
  - unfold _on_message. destruct data as [d|e]; [|split; reflexivity].
    destruct (d !! "p") as [p|]; [|split; reflexivity].
    destruct (d !! "q") as [q|]; [|split; reflexivity].
    destruct (d !! "m") as [m|]; [|split; reflexivity].
    destruct (py_float p); split; reflexivity.
Qed.

End Feed.

Lemma monitor_poll_fresh now st :
  (now - last_update_time st <= reconnect_interval st)%Q -> monitor_poll now st = st.
Proof.
  intros Hf. unfold monitor_poll.
  now rewrite (proj2 (Qlt_bool_false_iff _ _) Hf).
Qed.

Lemma monitor_connection_fresh n clock st :
  (forall t, In t (wakes n clock) -> (t - last_update_time st <= reconnect_interval st)%Q) ->
  _monitor_connection n clock st = st.
Proof.
  revert clock. induction n as [|n IH]; intros clock Hall; cbn [_monitor_connection];
    [reflexivity|].
  rewrite monitor_poll_fresh by (apply Hall; now left).
  apply IH. intros t Hin. apply Hall. now right.
Qed.

Section FeedWatchdog.
Context `{PyFloat}.

(** X13. After an accepted tick the watchdog does not reconnect as long as
    its polls come within the reconnect interval of the tick: the feed stays
    as the tick left it. *)
Theorem fresh_tick_defers_reconnect (n : nat) (clock now : Q)
    (data : res (gmap string pyval)) (st : ws_state) (price : Q) :
  complete_tick data price ->
  (forall t, In t (wakes n clock) -> (t - now <= reconnect_interval st)%Q) ->
  _monitor_connection n clock (_on_message now data st) = _on_message now data st
  /\ current_price (_monitor_connection n clock (_on_message now data st)) = Some price
  /\ reconnects (_monitor_connection n clock (_on_message now data st)) = reconnects st.
Proof.
  intros Htick Hall. rewrite (on_message_complete _ _ _ _ Htick).
  rewrite monitor_connection_fresh by exact Hall. repeat split.
Qed.

End FeedWatchdog.

Lemma monitor_poll_price now st : current_price (monitor_poll now st) = current_price st.
Proof. unfold monitor_poll. now destruct (Qlt_bool _ _). Qed.

Lemma monitor_connection_fields n clock st :
  current_price (_monitor_connection n clock st) = current_price st
  /\ last_update_time (_monitor_connection n clock st) = last_update_time st
  /\ reconnect_interval (_monitor_connection n clock st) = reconnect_interval st.
Proof.
  revert clock st. induction n as [|n IH]; intros clock st; cbn [_monitor_connection];
    [auto|].
  destruct (IH (clock + 3)%Q (monitor_poll (clock + 3) st)) as (-> & -> & ->).
  destruct (monitor_poll_fields (clock + 3) st) as [-> ->].
  now rewrite monitor_poll_price.
Qed.

(** X14. The watchdog never touches the current price or the time of the
    last update; it only appends reconnect attempts, each at one of its
    polls and each more than the reconnect interval after the last
    update. *)
Theorem watchdog_keeps_last_price (n : nat) (clock : Q) (st : ws_state) :
  let st' := _monitor_connection n clock st in
  current_price st' = current_price st
  /\ last_update_time st' = last_update_time st
  /\ exists attempts,
       reconnects st' = reconnects st ++ attempts
       /\ forall t, In t attempts ->
            In t (wakes n clock)
            /\ (reconnect_interval st < t - last_update_time st)%Q.
Proof.
  cbn zeta. destruct (monitor_connection_fields n clock st) as (Hp & Ht & _).
  split; [exact Hp|split; [exact Ht|]].
  exists (List.filter (stale (reconnect_interval st) (last_update_time st)) (wakes n clock)).
  split; [apply monitor_connection_reconnects|].
  intros t Hin. apply filter_In in Hin as [Hin Hs].
  split; [exact Hin|]. now apply Qlt_bool_iff.
Qed.

(** ** The local order book *)

Section OrderManagerFacts.
Context `{PyFloat}.

Lemma modify_bracket_order_eq redis_up order_id new st :
  modify_bracket_order redis_up order_id new st =
  match orders st !! order_id with
  | None => (Raise ValueError, st)
  | Some o =>
      let o' := update_params new o in
      (Ret o',
       {| orders := <[order_id := o']> (orders st);
          archive := if redis_up then ltrim_last 1000 (archive st ++ [o']) else archive st;
          venue_calls := venue_calls st ++ (if redis_up then [CallRedisPush o'] else []) |})
  end.
Proof.
  unfold modify_bracket_order. run_monad.
  destruct (orders st !! order_id) as [o|]; [|reflexivity].
  unfold _store_order. run_monad. destruct redis_up; cbn.
  - reflexivity.
  - rewrite app_nil_r. now destruct st.
Qed.

(** X15. [modify_bracket_order] raises ValueError and changes nothing for an
    id that is not cached.  For a cached id it returns the cached order with
    the new parameters laid over the old ones, stores it under the same id
    and, when the store answers, appends it to the archive; the side, status
    and age seen by the safety checks are unchanged, the other cached orders
    are untouched, and no order is sent to the venue. *)
Theorem modify_bracket_order_merges (redis_up : bool) (order_id : string)
    (new : gmap string pyval) (st : tm_state) :
  let out := modify_bracket_order redis_up order_id new st in
  (orders st !! order_id = None -> out = (Raise ValueError, st))
  /\ (forall o, orders st !! order_id = Some o ->
        exists o',
          fst out = Ret o'
          /\ orders (snd out) !! order_id = Some o'
          /\ (forall k v, new !! k = Some v -> oi_params o' !! k = Some v)
          /\ (forall k, new !! k = None -> oi_params o' !! k = oi_params o !! k)
          /\ (forall side, local_pending side o' = local_pending side o)
          /\ (forall now, is_stale now o' = is_stale now o)
          /\ (forall id, id <> order_id -> orders (snd out) !! id = orders st !! id)
          /\ (redis_up = true -> last (archive (snd out)) = Some o'))
  /\ create_order_count (venue_calls (snd out)) = create_order_count (venue_calls st).
Proof.
  cbn zeta. rewrite modify_bracket_order_eq. split; [|split].
  - intros ->. reflexivity.
  - intros o ->. cbn zeta. eexists. split; [reflexivity|]. cbn [snd orders archive].
    split; [apply lookup_insert_eq|].
    split; [intros k v Hk; cbn; now apply lookup_union_Some_l|].
    split; [intros k Hk; cbn; now apply lookup_union_r|].
    split; [reflexivity|]. split; [reflexivity|].
    split; [intros id Hne; now apply lookup_insert_ne|].
    intros ->. apply last_ltrim_last.
  - destruct (orders st !! order_id); [|reflexivity]. cbn [snd venue_calls].
    rewrite create_order_count_app. destruct redis_up; cbn; lia.
Qed.


End OrderManagerFacts.

(** ** [monitor_trailing_stop] *)

Section MonitorFacts.
Context `{PyFloat}.

Lemma stop_loss_order_stop_price h pct :
  stop_loss_order h pct !! "stop_price"
  = Some (VStr (str_of_float (round2 (h * (1 - pct / 100))))).
Proof. unfold stop_loss_order. cbn zeta. now simplify_map_eq. Qed.

Lemma monitor_iteration_eq id pct ticker up st h :
  highest_price st = Some h ->
  monitor_iteration id pct ticker up st =
  match get_current_price ticker with
  | Raise _ => (Ret tt, st)
  | Ret price =>
      let h' := if Qlt_bool h price then price else h in
      (Ret tt,
       {| monitor_orders :=
            snd (modify_bracket_order up id (stop_loss_order h' pct) (monitor_orders st));
          highest_price := Some h' |})
  end.
Proof.
  intros Hh. unfold monitor_iteration.
  destruct (get_current_price ticker) as [price|e]; [|reflexivity].
  destruct st as [mo hp]. cbn in Hh. subst hp.
  run_monad. cbn.
  destruct (Qlt_bool h price); cbn;
    destruct (modify_bracket_order _ _ _ _) as [[o|e] t]; reflexivity.
Qed.

(** X17. One iteration of [monitor_trailing_stop], once a highest price is
    known, never raises.  When the price cannot be fetched nothing changes.
    Otherwise the highest price becomes the larger of the old one and the
    price read; an unknown bracket id leaves the order book as it was, and a
    cached bracket order gets the stop price computed from the new highest
    price while keeping its status. *)
Theorem monitor_iteration_writes_stop (id : string) (pct : Q) (ticker : res pyval)
    (up : bool) (st : monitor_state) (h : Q) :
  highest_price st = Some h ->
  let out := monitor_iteration id pct ticker up st in
  fst out = Ret tt
  /\ (forall e, get_current_price ticker = Raise e -> snd out = st)
  /\ (forall price, get_current_price ticker = Ret price ->
        let h' := if Qlt_bool h price then price else h in
        highest_price (snd out) = Some h'
        /\ (orders (monitor_orders st) !! id = None ->
            monitor_orders (snd out) = monitor_orders st)
        /\ (forall o, orders (monitor_orders st) !! id = Some o ->
              exists o',
                orders (monitor_orders (snd out)) !! id = Some o'
                /\ oi_params o' !! "stop_price"
                   = Some (VStr (str_of_float (round2 (h' * (1 - pct / 100)))))
                /\ oi_status o' = oi_status o)).
Proof.
  intros Hh. cbn zeta. rewrite (monitor_iteration_eq _ _ _ _ _ _ Hh).
  destruct (get_current_price ticker) as [price|e].
  - cbn zeta. split; [reflexivity|]. split; [discriminate|].
    intros price' [= <-]. cbn [snd highest_price monitor_orders].
    split; [reflexivity|].
    rewrite modify_bracket_order_eq. split.
    + intros ->. reflexivity.
    + intros o ->. cbn. eexists. split; [apply lookup_insert_eq|]. cbn.
      split; [|reflexivity].
      apply lookup_union_Some_l, stop_loss_order_stop_price.
  - split; [reflexivity|]. split; [reflexivity|discriminate].
Qed.

Lemma monitor_loop_highest (id : string) (pct : Q)
    (ticks : list (res pyval * bool)) (st : monitor_state) (h : Q) :
  highest_price st = Some h ->
  fst (monitor_loop id pct ticks st) = Ret tt
  /\ exists h',
       highest_price (snd (monitor_loop id pct ticks st)) = Some h'
       /\ (h <= h')%Q
       /\ (forall ticker up price,
             (ticker, up) ∈ ticks -> get_current_price ticker = Ret price ->
             (price <= h')%Q)
       /\ (h' = h \/ exists ticker up,
                       (ticker, up) ∈ ticks /\ get_current_price ticker = Ret h').
Proof.
  revert st h.
  induction ticks as [|[ticker up] rest IH]; intros st h Hh; cbn [monitor_loop].
  - split; [reflexivity|]. exists h. split; [exact Hh|]. split; [apply Qle_refl|].
    split; [intros ? ? ? Hin; inversion Hin|now left].
  - unfold mbind, M_bind. rewrite (monitor_iteration_eq _ _ _ _ _ _ Hh).
    destruct (get_current_price ticker) as [price|e] eqn:Hp.
    + cbn zeta.
      set (h1 := if Qlt_bool h price then price else h).
      set (st1 := {| monitor_orders := _; highest_price := Some h1 |}).
      assert (Hh1 : (h <= h1)%Q /\ (price <= h1)%Q /\ (h1 = h \/ h1 = price)).
      { unfold h1. destruct (Qlt_bool h price) eqn:E.
        - apply Qlt_bool_iff in E.
          split; [now apply Qlt_le_weak|split; [apply Qle_refl|now right]].
        - apply Qlt_bool_false_iff in E.
          split; [apply Qle_refl|split; [exact E|now left]]. }
      destruct Hh1 as (Hhh1 & Hph1 & Hsel).
      destruct (IH st1 h1 eq_refl) as (Hret & h' & Hh' & Hle & Hall & Hread).
      split; [exact Hret|]. exists h'. split; [exact Hh'|].
      split; [now apply Qle_trans with h1|].
      split.
      * intros t u p Hin Hprice. apply elem_of_cons in Hin as [[= -> ->]|Hin].
        -- rewrite Hp in Hprice. injection Hprice as <-.
           now apply Qle_trans with h1.
        -- exact (Hall t u p Hin Hprice).
      * destruct Hread as [->|(t & u & Hin & Ht)].
        -- destruct Hsel as [->| ->]; [now left|].
           right. exists ticker, up. split; [apply list_elem_of_here|exact Hp].
        -- right. exists t, u. split; [now apply list_elem_of_further|exact Ht].
    + destruct (IH st h Hh) as (Hret & h' & Hh' & Hle & Hall & Hread).
      split; [exact Hret|]. exists h'. split; [exact Hh'|]. split; [exact Hle|].
      split.
      * intros t u p Hin Hprice. apply elem_of_cons in Hin as [[= -> ->]|Hin].
        -- congruence.
        -- exact (Hall t u p Hin Hprice).
      * destruct Hread as [->|(t & u & Hin & Ht)]; [now left|].
        right. exists t, u. split; [now apply list_elem_of_further|exact Ht].
Qed.

(** X18. [monitor_trailing_stop] never raises.  When the first price cannot
    be fetched it changes nothing.  Otherwise the highest price it holds
    after any number of iterations is the largest of the prices it has
    read: at least the first price, at least every price read since, and
    equal to one of them. *)
Theorem monitor_keeps_highest_price (id : string) (pct : Q) (first : res pyval)
    (ticks : list (res pyval * bool)) (st : monitor_state) :
  let out := monitor_trailing_stop id pct first ticks st in
  fst out = Ret tt
  /\ (forall e, get_current_price first = Raise e -> snd out = st)
  /\ (forall p0, get_current_price first = Ret p0 ->
        exists h',
          highest_price (snd out) = Some h'
          /\ (p0 <= h')%Q
          /\ (forall ticker up price,
                (ticker, up) ∈ ticks -> get_current_price ticker = Ret price ->
                (price <= h')%Q)
          /\ (h' = p0 \/ exists ticker up,
                           (ticker, up) ∈ ticks /\ get_current_price ticker = Ret h')).
Proof.
  cbn zeta. unfold monitor_trailing_stop, monitor_start.
  destruct (get_current_price first) as [p0|e].
  - run_monad.
    destruct (monitor_loop_highest id pct ticks (set_highest_price (Some p0) st) p0 eq_refl)
      as (Hret & h' & Hh' & Hle & Hall & Hread).
    split; [exact Hret|]. split; [discriminate|].
    intros p [= <-]. exists h'. repeat split; assumption.
  - run_monad. split; [reflexivity|]. split; [reflexivity|discriminate].
Qed.

End MonitorFacts.

(** ** The signal processor, the tick grid and the order book *)

(** X19. For a side that is not empty, [cancel_conflicting_orders] and
    [cancel_same_side_orders] together ask to cancel every order whose
    status reads open, each exactly once; with an empty side
    [cancel_conflicting_orders] alone asks for all of them.
    [open_pending_order_exists] answers True exactly when
    [cancel_same_side_orders] has something to cancel. *)
Theorem cancel_requests_cover_open_orders (fetched : res (list live_order))
    (side : string) :
  side <> "" ->
  cancel_conflicting_orders fetched "" = open_ids fetched
  /\ cancel_conflicting_orders fetched side ++ cancel_same_side_orders fetched side
     ≡ₚ open_ids fetched
  /\ (open_pending_order_exists fetched side = true
      <-> cancel_same_side_orders fetched side <> []).
Proof.
  intros Hside.
  unfold cancel_conflicting_orders, cancel_same_side_orders, open_ids,
    open_pending_order_exists.
  destruct fetched as [os|e]; [|split; [reflexivity|split; [reflexivity|]];
                                 split; [discriminate|congruence]].
  assert (Hne : String.eqb side "" = false) by now apply String.eqb_neq.
  rewrite Hne. split; [|split].
  - induction os as [|o os IH]; [reflexivity|]. cbn in IH |- *.
    destruct (is_open o); cbn; now rewrite IH.
  - induction os as [|o os IH]; [reflexivity|]. cbn.
    destruct (is_open o); cbn.
    + destruct (String.eqb (order_side o) (lower side)); cbn.
      * rewrite <- IH. symmetry. apply Permutation_middle.
      * now rewrite IH.
    + rewrite andb_false_r. cbn. exact IH.
  - induction os as [|o os IH]; cbn.
    + split; [discriminate|congruence].
    + destruct (String.eqb (order_side o) (lower side) && is_open o); cbn.
      * split; [discriminate|reflexivity].
      * exact IH.
Qed.

Section SignalFacts.
Variable strip : string -> string.

Lemma no_repeats_snoc (l : list string) (x : string) :
  no_repeats l -> (forall y, last l = Some y -> y <> x) -> no_repeats (l ++ [x]).
Proof.
  induction l as [|a [|b rest] IH]; intros Hl Hlast.
  - exact I.
  - cbn. split; [apply Hlast; reflexivity|exact I].
  - destruct Hl as [Hab Hrest]. cbn. split; [exact Hab|].
    apply IH; [exact Hrest|]. intros y Hy. apply Hlast. exact Hy.
Qed.

Lemma signals_are_different_true new old :
  signals_are_different strip new old = true ->
  signal_key strip new <> ""
  /\ forall o, old = Some o -> signal_key strip o <> signal_key strip new.
Proof.
  unfold signals_are_different.
  destruct (String.eqb (signal_key strip new) "") eqn:Hb; [discriminate|].
  apply String.eqb_neq in Hb. intros Hd. split; [exact Hb|].
  intros o ->. apply negb_true_iff, String.eqb_neq in Hd. congruence.
Qed.

Lemma process_signals_step_invariant st turn :
  signals_invariant strip st -> signals_invariant strip (process_signals_step strip st turn).
Proof.
  intros Hst. pose proof Hst as (Hnb & Hnr & Hlast). unfold process_signals_step.
  destruct (sp_running st) eqn:Hrun; cbn [negb]; [|exact Hst].
  destruct turn as [[s|] completes]; [|exact Hst].
  destruct (signals_are_different strip s (sp_last_signal st)) eqn:Hd; [|exact Hst].
  apply signals_are_different_true in Hd as [Hs Hold].
  split; [|split]; cbn [sp_processed sp_running sp_last_signal].
  - apply Forall_app. split; [exact Hnb|]. constructor; [exact Hs|constructor].
  - rewrite fmap_app. cbn [fmap list_fmap]. apply no_repeats_snoc; [exact Hnr|].
    intros y Hy. rewrite fmap_last in Hy. rewrite <- (Hlast eq_refl) in Hy.
    destruct (sp_last_signal st) as [o|]; [|discriminate].
    injection Hy as <-. now apply Hold.
  - intros ->. now rewrite last_snoc.
Qed.

(** X20. [process_signals_loop] hands a signal to [process_signal] only when
    its text, stripped and lowered, is not empty and differs from the text
    of the signal handed over before it; while the loop runs, the signal
    remembered is the last one handed over.  A signal never differs from
    itself. *)
Theorem repeated_signal_is_processed_once (turns : list (option signal * bool)) :
  let st := process_signals_loop strip turns in
  Forall (fun s => signal_key strip s <> "") (sp_processed st)
  /\ no_repeats (signal_key strip <$> sp_processed st)
  /\ (sp_running st = true -> sp_last_signal st = last (sp_processed st))
  /\ (forall s, signals_are_different strip s (Some s) = false).
Proof.
  cbn zeta.
  assert (Hinv : signals_invariant strip (process_signals_loop strip turns)).
  { unfold process_signals_loop.
    assert (Hinit : signals_invariant strip sp_init).
    { split; [constructor|]. split; [exact I|reflexivity]. }
    revert Hinit. generalize sp_init.
    induction turns as [|t rest IH]; intros st Hst; [exact Hst|].
    cbn [fold_left]. apply IH. now apply process_signals_step_invariant. }
  destruct Hinv as (H1 & H2 & H3). repeat split; try assumption.
  intros s. unfold signals_are_different.
  destruct (String.eqb (signal_key strip s) ""); [reflexivity|].
  now rewrite String.eqb_refl.
Qed.

End SignalFacts.

Lemma floordiv_floor (a b : Q) :
  (0 <= a)%Q -> (0 < b)%Q -> floordiv a b = Qfloor (a / b).
Proof.
  intros Ha Hb. unfold floordiv.
  assert (Hx : (0 <= a / b)%Q).
  { unfold Qdiv. apply Qmult_le_0_compat; [exact Ha|].
    apply Qlt_le_weak, Qinv_lt_0_compat, Hb. }
  destruct (a / b)%Q as [n d]. cbn [Qnum Qden Qfloor].
  unfold Qle in Hx. cbn in Hx. apply Z.quot_div_nonneg; lia.
Qed.

(** X21. For a positive tick size and a price that is not negative,
    [quantize_price] returns the largest multiple of the tick size that does
    not exceed the price: it is at most the price, less than one tick below
    it, and quantizing it again returns it. *)
Theorem quantize_price_floors_to_tick (tick price : Q) :
  (0 < tick)%Q -> (0 <= price)%Q ->
  exists q,
    quantize_price tick price = Some q
    /\ (q == inject_Z (floordiv price tick) * tick)%Q
    /\ (0 <= floordiv price tick)%Z
    /\ (q <= price)%Q /\ (price < q + tick)%Q
    /\ (forall k : Z, (inject_Z k * tick <= price)%Q -> (k <= floordiv price tick)%Z)
    /\ (exists q', quantize_price tick q = Some q' /\ (q' == q)%Q).
Proof.
  intros Htick Hprice.
  assert (Hnz : ~ (tick == 0)%Q).
  { intros E. rewrite E in Htick. now apply Qlt_irrefl in Htick. }
  assert (Hneq : Qeq_bool tick 0 = false).
  { destruct (Qeq_bool tick 0) eqn:E; [|reflexivity]. now apply Qeq_bool_eq in E. }
  assert (Hgrid : forall k : Z, (0 <= k)%Z ->
            floordiv (inject_Z k * tick) tick = k).
  { intros k Hk. rewrite floordiv_floor; [|
      apply Qmult_le_0_compat;
        [change (inject_Z 0 <= inject_Z k)%Q; now rewrite <- Zle_Qle|now apply Qlt_le_weak]
      | exact Htick].
    assert (E : (inject_Z k * tick / tick == inject_Z k)%Q) by now field.
    rewrite E. apply Qfloor_Z. }
  assert (Hfloor : forall k : Z, (inject_Z k * tick <= price)%Q ->
            (k <= Qfloor (price / tick))%Z).
  { intros k Hk. rewrite <- (Qfloor_Z k). apply Qfloor_resp_le.
    apply Qle_shift_div_l; [exact Htick|exact Hk]. }
  unfold quantize_price. rewrite Hneq. eexists. split; [reflexivity|].
  rewrite (floordiv_floor price tick Hprice Htick).
  assert (Hk0 : (0 <= Qfloor (price / tick))%Z).
  { apply Hfloor. cbn. rewrite Qmult_0_l. exact Hprice. }
  split; [reflexivity|]. split; [exact Hk0|].
  split; [|split; [|split]].
  - apply Qle_trans with (price / tick * tick)%Q.
    + apply Qmult_le_compat_r; [apply Qfloor_le|now apply Qlt_le_weak].
    + assert (E : (price / tick * tick == price)%Q) by now field.
      rewrite E. apply Qle_refl.
  - assert (E : (inject_Z (Qfloor (price / tick)) * tick + tick
                 == inject_Z (Qfloor (price / tick) + 1) * tick)%Q).
    { rewrite inject_Z_plus. ring. }
    rewrite E.
    assert (E' : (price == price / tick * tick)%Q) by now field.
    rewrite E' at 1. apply Qmult_lt_compat_r; [exact Htick|apply Qlt_floor].
  - exact Hfloor.
  - eexists. split; [reflexivity|].
    rewrite (Hgrid _ Hk0). reflexivity.
Qed.

Section OrderBookFacts.
Context `{PyFloat}.



Lemma cancel_order_eq {A} (answer : res A) redis_up order_id st :
  cancel_order answer redis_up order_id st =
  match orders st !! order_id with
  | None => (Raise ValueError, st)
  | Some o =>
      match answer with
      | Raise e => (Raise e, st)
      | Ret a =>
          (Ret a,
           {| orders := <[order_id := mark_canceled o]> (orders st);
              archive := if redis_up then ltrim_last 1000 (archive st ++ [mark_canceled o])
                         else archive st;
              venue_calls := venue_calls st
                             ++ (if redis_up then [CallRedisPush (mark_canceled o)] else []) |})
      end
  end.
Proof.
  unfold cancel_order. run_monad.
  destruct (orders st !! order_id) as [o|]; [|reflexivity].
  destruct answer as [a|e]; [|reflexivity].
  unfold _store_order. run_monad. destruct redis_up; cbn.
  - reflexivity.
  - rewrite app_nil_r. now destruct st.
Qed.


(** X24. [cancel_order] raises ValueError and changes nothing for an id
    that is not cached, and passes on the venue's error, again changing
    nothing, when the venue refuses.  When the venue accepts, the cached
    order stays under its id but no longer counts as pending or open for any
    side: the local safety check is then hit only by the other cached
    orders. *)
Theorem canceled_order_stops_blocking {A : Type} (answer : res A) (redis_up : bool)
    (order_id : string) (st : tm_state) :
  let out := cancel_order answer redis_up order_id st in
  (orders st !! order_id = None -> out = (Raise ValueError, st))
  /\ (forall e, is_Some (orders st !! order_id) -> answer = Raise e -> out = (Raise e, st))
  /\ (forall a, is_Some (orders st !! order_id) -> answer = Ret a ->
        fst out = Ret a
        /\ (forall o', orders (snd out) !! order_id = Some o' ->
              forall sym side, local_pending side o' = false
                               /\ cached_open sym side o' = false)
        /\ (forall side,
              map_Exists (fun _ o => local_pending side o = true) (orders (snd out))
              <-> exists id o, id <> order_id /\ orders st !! id = Some o
                               /\ local_pending side o = true)
        /\ dom (orders (snd out)) = dom (orders st)).
Proof.
  cbn zeta. rewrite cancel_order_eq. split; [|split].
  - intros ->. reflexivity.
  - intros e [o ->] ->. reflexivity.
  - intros a [o Ho] ->. rewrite Ho. cbn [fst snd orders].
    assert (Hc : forall sym side, local_pending side (mark_canceled o) = false
                                  /\ cached_open sym side (mark_canceled o) = false).
    { intros sym side. unfold local_pending, cached_open, mark_canceled. cbn.
      rewrite !andb_false_r. split; reflexivity. }
    split; [reflexivity|]. split; [|split].
    + intros o'. rewrite lookup_insert_eq. intros [= <-]. exact Hc.
    + intros side. split.
      * intros (id & o' & Hl & Hp). destruct (decide (id = order_id)) as [->|Hne].
        -- rewrite lookup_insert_eq in Hl. injection Hl as <-.
           destruct (Hc "" side) as [Hlp _]. congruence.
        -- rewrite lookup_insert_ne in Hl by congruence. now exists id, o'.
      * intros (id & o' & Hne & Hl & Hp). exists id, o'.
        split; [|exact Hp]. now rewrite lookup_insert_ne by congruence.
    + apply set_eq. intros k. rewrite !elem_of_dom.
      destruct (decide (k = order_id)) as [->|Hne].
      * rewrite lookup_insert_eq, Ho. split; intros _; eauto.
      * now rewrite lookup_insert_ne by congruence.
Qed.

End OrderBookFacts.

(** ** Examples of the further properties *)

Lemma trailing_tables_stay_aligned_witness :
  tables_aligned pt_init
  /\ tables_aligned
       (tracker_run [Cycle 10 (Ret [long_100]) (Some 150%Q) (fun _ => quiet_venue);
                     Flag true;
                     Cycle 20 (Ret [long_200]) (Some 210%Q) (fun _ => quiet_venue)]
          pt_init).
Proof.
  assert (H0 : tables_aligned pt_init).
  { intros k. cbn. rewrite !lookup_empty. reflexivity. }
  split; [exact H0|]. exact (trailing_tables_stay_aligned _ pt_init H0).
Defined.

Lemma excursions_stay_nonneg_witness :
  excursions_nonneg pt_init
  /\ excursions_nonneg
       (tracker_run [Cycle 10 (Ret [long_100]) (Some 90%Q) (fun _ => quiet_venue);
                     Flag true;
                     Cycle 20 (Ret [long_100]) (Some 80%Q) (fun _ => quiet_venue)]
          pt_init).
Proof.
  assert (H0 : excursions_nonneg pt_init).
  { intros k m Hk. cbn in Hk. rewrite lookup_empty in Hk. discriminate Hk. }
  split; [exact H0|]. exact (excursions_stay_nonneg _ pt_init H0).
Defined.

Lemma position_poll_is_cached_witness :
  track_cycle 3 (Ret [long_100]) (Some 150%Q) (fun _ => quiet_venue) pt_init
  = track_cycle 3 (Raise VenueError) (Some 150%Q) (fun _ => quiet_venue) pt_init
  /\ cached_positions
       (snd (track_cycle 7 (Ret [long_100]) (Some 150%Q) (fun _ => quiet_venue) pt_init))
     = fetch_open_positions (Ret [long_100]).
Proof.
  split.
  - destruct (position_poll_is_cached 3 (Ret [long_100]) (Raise VenueError) (Some 150%Q)
                (fun _ => quiet_venue) pt_init) as [Hnot _].
    apply Hnot. vm_compute. reflexivity.
  - destruct (position_poll_is_cached 7 (Ret [long_100]) (Ret []) (Some 150%Q)
                (fun _ => quiet_venue) pt_init) as [_ Hdue].
    apply Hdue. vm_compute. reflexivity.
Defined.

Lemma profit_measures_agree_witness :
  (exists r, compute_raw_profit long_100 150 = Some r
             /\ r == current_profit 100 1 150 * Qabs 1)
  /\ compute_profit_pct zero_entry_long 150 = Raise ZeroDivisionError
  /\ compute_raw_profit no_entry_long 150 = None.
Proof.
  split; [|split].
  - destruct (profit_measures_agree long_100 150) as [Htracked _].
    destruct (Htracked 100%Q 1%Q) as (Hraw & _ & _); [repeat split|exact Hraw].
  - destruct (profit_measures_agree zero_entry_long 150) as [Htracked _].
    destruct (Htracked 0%Q 1%Q) as (_ & _ & Hzero); [repeat split|].
    apply Hzero. reflexivity.
  - destruct (profit_measures_agree no_entry_long 150) as [_ Hnone].
    apply Hnone. intros entry E. vm_compute in E. discriminate E.
Defined.



Lemma book_profit_reports_accepted_close_witness :
  fst (book_profit stuck_venue long_100 99 pt_init) = Ret true
  /\ fst (book_profit rejecting_venue long_100 99 pt_init) = Ret false
  /\ book_profit quiet_venue long_100 100 pt_init
     = (Ret false, snd (update_trailing_stop long_100 100 pt_init)).
Proof.
  split; [|split].
  - destruct (book_profit_reports_accepted_close stuck_venue long_100 99 pt_init 100 1
                (fixed_offset_stop 100 1)
                (Qmax (mfe pt_init (position_key long_100)) (current_profit 100 1 99) / 100)%Q
                fixed_stop) as [Hbreach _]; [repeat split|reflexivity|].
    destruct Hbreach as (Haccepted & _ & _); [vm_compute; reflexivity|].
    apply (Haccepted {| r_id := Some "o1"; r_status := Some "open"; r_timestamp := Some 5%Z |}
             [long_100] true); reflexivity.
  - destruct (book_profit_reports_accepted_close rejecting_venue long_100 99 pt_init 100 1
                (fixed_offset_stop 100 1)
                (Qmax (mfe pt_init (position_key long_100)) (current_profit 100 1 99) / 100)%Q
                fixed_stop) as [Hbreach _]; [repeat split|reflexivity|].
    destruct Hbreach as (_ & Hrefused & _); [vm_compute; reflexivity|].
    apply (Hrefused VenueError). reflexivity.
  - destruct (book_profit_reports_accepted_close quiet_venue long_100 100 pt_init 100 1
                (fixed_offset_stop 100 1)
                (Qmax (mfe pt_init (position_key long_100)) (current_profit 100 1 100) / 100)%Q
                fixed_stop) as [_ Hquiet]; [repeat split|reflexivity|].
    apply Hquiet. vm_compute. reflexivity.
Defined.

Lemma returned_order_is_verified_witness :
  let out := place_market_order quiet_venue "BTCUSD" "sell" 1 ioc true tm_init in
  let info :=
    recorded quiet_venue "BTCUSD" "sell" 1 (sent_params ioc true)
      {| r_id := Some "o1"; r_status := Some "closed"; r_timestamp := Some 0%Z |} in
  fst out = Ret (Some info)
  /\ orders (snd out) !! "o1" = Some info.
Proof.
  cbn zeta.
  assert (Hret : fst (place_market_order quiet_venue "BTCUSD" "sell" 1 ioc true tm_init)
                 = Ret (Some (recorded quiet_venue "BTCUSD" "sell" 1 (sent_params ioc true)
                                {| r_id := Some "o1"; r_status := Some "closed";
                                   r_timestamp := Some 0%Z |})))
    by reflexivity.
  split; [exact Hret|].
  exact (proj1 (returned_order_is_verified quiet_venue "BTCUSD" "sell" 1 ioc true tm_init
                  _ Hret)).
Defined.

Lemma safety_checks_fail_open_witness :
  create_order_count
    (venue_calls (snd (place_market_order blind_venue "BTCUSD" "buy" 1 None false tm_init)))
  = 1%nat.
Proof.
  destruct (safety_checks_fail_open blind_venue "BTCUSD" "buy" 1 None tm_init
              VenueError VenueError) as (_ & Hcount & _).
  - reflexivity.
  - reflexivity.
  - intros id o Hl. cbn in Hl. rewrite lookup_empty in Hl. discriminate Hl.
  - exact Hcount.
Defined.


Lemma on_message_accepts_complete_ticks_witness :
  current_price (_on_message 5 (Ret trade_tick) (ws_init 0)) = Some 100%Q
  /\ last_update_time (_on_message 5 (Ret trade_tick) (ws_init 0)) = 5%Q.
Proof.
  destruct (on_message_accepts_complete_ticks 5 (Ret trade_tick) (ws_init 0))
    as (Haccept & _).
  apply Haccept. exists trade_tick, (VStr "100").
  split; [reflexivity|]. split; [reflexivity|].
  split; [exists (VStr "1"); reflexivity|].
  split; [exists (VBool true); reflexivity|reflexivity].
Defined.

Lemma fresh_tick_defers_reconnect_witness :
  _monitor_connection 3 5 (_on_message 5 (Ret trade_tick) (ws_init 0))
  = _on_message 5 (Ret trade_tick) (ws_init 0).
Proof.
  apply (fresh_tick_defers_reconnect 3 5 5 (Ret trade_tick) (ws_init 0) 100).
  - exists trade_tick, (VStr "100").
    split; [reflexivity|]. split; [reflexivity|].
    split; [exists (VStr "1"); reflexivity|].
    split; [exists (VBool true); reflexivity|reflexivity].
  - intros t Hin. cbn in Hin.
    destruct Hin as [<-|[<-|[<-|[]]]]; vm_compute; discriminate.
Defined.

Lemma modify_bracket_order_merges_witness :
  exists o',
    fst (modify_bracket_order true "fresh" {[ "stop_price" := VStr "98.0" ]} tm_cached)
    = Ret o'
    /\ oi_params o' !! "stop_price" = Some (VStr "98.0")
    /\ local_pending "buy" o' = local_pending "buy" (cached_order "fresh" 1000).
Proof.
  destruct (modify_bracket_order_merges true "fresh" {[ "stop_price" := VStr "98.0" ]}
              tm_cached) as (_ & Hknown & _).
  destruct (Hknown (cached_order "fresh" 1000)) as (o' & Hret & _ & Hnew & _ & Hside & _).
  - reflexivity.
  - exists o'. split; [exact Hret|]. split; [|apply Hside].
    apply Hnew. reflexivity.
Defined.


Lemma monitor_iteration_writes_stop_witness :
  highest_price
    (snd (monitor_iteration "fresh" 2 (Ret (VStr "110")) true monitor_at_100))
  = Some (if Qlt_bool 100 110 then 110 else 100)%Q
  /\ snd (monitor_iteration "fresh" 2 (Raise VenueError) true monitor_at_100)
     = monitor_at_100.
Proof.
  destruct (monitor_iteration_writes_stop "fresh" 2 (Ret (VStr "110")) true
              monitor_at_100 100 eq_refl) as (_ & _ & Hread).
  destruct (monitor_iteration_writes_stop "fresh" 2 (Raise VenueError) true
              monitor_at_100 100 eq_refl) as (_ & Hfail & _).
  split.
  - destruct (Hread 110%Q) as (Hhigh & _); [reflexivity|exact Hhigh].
  - apply (Hfail VenueError). reflexivity.
Defined.

Lemma monitor_keeps_highest_price_witness :
  exists h',
    highest_price
      (snd (monitor_trailing_stop "fresh" 2 (Ret (VStr "100"))
              [(Ret (VStr "110"), true); (Raise VenueError, true); (Ret (VStr "105"), false)]
              monitor_at_100))
    = Some h'
    /\ (100 <= h')%Q.
Proof.
  destruct (monitor_keeps_highest_price "fresh" 2 (Ret (VStr "100"))
              [(Ret (VStr "110"), true); (Raise VenueError, true); (Ret (VStr "105"), false)]
              monitor_at_100) as (_ & _ & Hread).
  destruct (Hread 100%Q) as (h' & Hh & Hle & _); [reflexivity|].
  exists h'. split; [exact Hh|exact Hle].
Defined.

Lemma cancel_requests_cover_open_orders_witness :
  cancel_conflicting_orders (Ret live_book) "buy"
  ++ cancel_same_side_orders (Ret live_book) "buy"
  ≡ₚ open_ids (Ret live_book).
Proof.
  destruct (cancel_requests_cover_open_orders (Ret live_book) "buy") as (_ & Hcover & _).
  - discriminate.
  - exact Hcover.
Defined.

Lemma quantize_price_floors_to_tick_witness :
  exists q, quantize_price 0.5 100.3 = Some q /\ (q <= 100.3)%Q /\ (100.3 < q + 0.5)%Q.
Proof.
  destruct (quantize_price_floors_to_tick 0.5 100.3) as (q & Hq & _ & _ & Hle & Hlt & _).
  - reflexivity.
  - discriminate.
  - exists q. split; [exact Hq|]. split; [exact Hle|exact Hlt].
Defined.


Lemma canceled_order_stops_blocking_witness :
  fst (cancel_order (Ret tt) true "fresh" tm_cached) = Ret tt
  /\ cancel_order (Raise VenueError : res unit) true "fresh" tm_cached
     = (Raise VenueError, tm_cached)
  /\ cancel_order (Ret tt) true "gone" tm_cached = (Raise ValueError, tm_cached).
Proof.
  destruct (canceled_order_stops_blocking (Ret tt) true "fresh" tm_cached)
    as (_ & _ & Haccepted).
  destruct (canceled_order_stops_blocking (Raise VenueError : res unit) true "fresh"
              tm_cached) as (_ & Hrefused & _).
  destruct (canceled_order_stops_blocking (Ret tt) true "gone" tm_cached)
    as (Hunknown & _).
  split; [|split].
  - destruct (Haccepted tt) as (Hret & _); [eexists; reflexivity|reflexivity|exact Hret].
  - apply (Hrefused VenueError); [eexists; reflexivity|reflexivity].
  - apply Hunknown. reflexivity.
Defined.

Lemma repeated_signal_is_processed_once_witness :
  let turns := [(Some buy_signal, true); (Some buy_signal, true); (None, true);
                (Some {| sig_text := None |}, true); (Some sell_signal, true);
                (Some sell_signal, true)] in
  sp_processed (process_signals_loop (fun s => s) turns) = [buy_signal; sell_signal]
  /\ no_repeats (signal_key (fun s => s)
                   <$> sp_processed (process_signals_loop (fun s => s) turns)).
Proof.
  cbn zeta. split; [reflexivity|].
  exact (proj1 (proj2 (repeated_signal_is_processed_once (fun s => s)
                         [(Some buy_signal, true); (Some buy_signal, true); (None, true);
                          (Some {| sig_text := None |}, true); (Some sell_signal, true);
                          (Some sell_signal, true)]))).
Defined.
